(** * KubeAgent: option-built identity, configuration path selection and
      collector factory assembly (package [agent], file pkg/agent/kubeagent.go)

    The Go code is embedded shallowly:
    - a [string] is a sequence of bytes, as in Go;
    - a pointer is [option]: [None] is Go's [nil];
    - a method with receiver [k *KubeAgent] takes the receiver's state and
      returns its result together with the receiver's state after the call;
    - a [map[component.Type]Factory] is a [gmap] keyed by the type name;
    - everything the package imports and does not define (the socket probe,
      the zap logger constructor, the collector's factory packages) is a
      parameter of the definitions that call it. *)

From Stdlib Require Import Ascii ZArith.
From Equations Require Import Equations.
From stdpp Require Import gmap strings list.

#[local] Set Warnings "-clear-no-such-hyp".

(* ===================================================================== *)
(** ** Go's [error] interface                                             *)
(* ===================================================================== *)

(** An error value as [fmt.Errorf] builds it: the format and its operands. *)
Inductive error_value : Type :=
| Errorf (format : string) (args : list string).

Definition error : Type := option error_value.
Definition nil_error : error := None.

#[global] Instance error_value_eq_dec : EqDecision error_value.
Proof. solve_decision. Defined.

(* ===================================================================== *)
(** ** Package [strings]: the part [GetUpdatedYAMLPath] calls             *)
(* ===================================================================== *)

Module gostrings.

(** [strings.HasPrefix(s, prefix)] *)
Fixpoint HasPrefix (s prefix : string) {struct prefix} : bool :=
  match prefix, s with
  | EmptyString, _ => true
  | String p prefix', String c s' =>
      if decide (c = p) then HasPrefix s' prefix' else false
  | String _ _, EmptyString => false
  end.

(** [s[n:]], clamped at the end of [s]. *)
Fixpoint slice_from (n : nat) (s : string) : string :=
  match n, s with
  | S n', String _ s' => slice_from n' s'
  | _, _ => s
  end.

(** [strings.Cut(s, sep)]: the text before and after the first (leftmost)
    instance of [sep] in [s]; [None] when [sep] does not occur. *)
Fixpoint Cut (s sep : string) : option (string * string) :=
  if HasPrefix s sep then Some (EmptyString, slice_from (String.length sep) s)
  else match s with
       | EmptyString => None
       | String c s' =>
           match Cut s' sep with
           | Some (before, after) => Some (String c before, after)
           | None => None
           end
       end.

(** [strings.Contains(s, substr)] *)
Definition Contains (s substr : string) : bool :=
  match Cut s substr with Some _ => true | None => false end.

Definition inspect {A} (a : A) : {b | a = b} := exist _ a eq_refl.

(** The loop of [strings.genSplit] for a separator [String c sep] that is
    not empty: cut at the leftmost separator, keep what is before it, go on
    with what is after it; the text after the last separator is the last
    segment. *)
Equations? genSplit (s : string) (c : ascii) (sep : string) : list string
  by wf (String.length s) lt :=
  genSplit s c sep with inspect (Cut s (String c sep)) := {
    | exist _ None _ => [s]
    | exist _ (Some (before, after)) Hcut => before :: genSplit after c sep }.
Proof.
  clear genSplit. revert before Hcut.
  induction s as [|d s IH]; intros before Hcut.
  - discriminate Hcut.
  - cbn [Cut] in Hcut.
    destruct (HasPrefix (String d s) (String c sep)) eqn:Hp.
    + injection Hcut as _ <-. cbn [String.length slice_from].
      clear. generalize (String.length sep). intros n.
      revert s. induction n as [|n IHn]; intros [|e s]; cbn; try lia.
      specialize (IHn s). lia.
    + destruct (Cut s (String c sep)) as [[b a]|] eqn:Hc; [|discriminate].
      injection Hcut as _ <-. specialize (IH _ eq_refl). cbn. lia.
Qed.

(** The empty separator: Go explodes [s] into its UTF-8 sequences.  Taken
    here byte by byte, which is the same on ASCII text.
    [GetUpdatedYAMLPath] never takes this branch. *)
Fixpoint explode (s : string) : list string :=
  match s with
  | EmptyString => []
  | String c s' => String c EmptyString :: explode s'
  end.

(** [strings.Split(s, sep)]: all substrings of [s] separated by [sep]. *)
Definition Split (s sep : string) : list string :=
  match sep with
  | EmptyString => explode s
  | String c sep' => genSplit s c sep'
  end.

(** [strings.SplitN(s, sep, 2)]: at most two substrings, the second one
    being the unsplit remainder after the first separator. *)
Definition SplitN2 (s sep : string) : list string :=
  match sep with
  | EmptyString =>
      match s with
      | EmptyString => []
      | String c EmptyString => [s]
      | String c s' => [String c EmptyString; s']
      end
  | String _ _ =>
      match Cut s sep with
      | Some (before, after) => [before; after]
      | None => [s]
      end
  end.

(** [strings.Join(elems, sep)]: the elements in order, [sep] between each
    two neighbours. *)
Fixpoint Join (elems : list string) (sep : string) : string :=
  match elems with
  | [] => ""
  | [e] => e
  | e :: rest => e +:+ sep +:+ Join rest sep
  end.

End gostrings.

(* ===================================================================== *)
(** ** Imported packages: zap, context, the collector                     *)
(* ===================================================================== *)

Module zap.
(** A [zap.Logger] object, named by its identity. *)
Definition Logger : Type := N.
End zap.

Module context.
(** What a [context.Context] can be asked: whether it is done, why, and
    its deadline if it has one. *)
Record Context : Type := mkContext {
  Done : bool;
  Err : error;
  Deadline : option Z
}.
Definition Background : Context := mkContext false nil_error None.
Definition Cancelled : Context :=
  mkContext true (Some (Errorf "context canceled" [])) None.
End context.

Module component.
(** [component.Type]: the name a factory declares for itself. *)
Definition Type_ : Type := string.
End component.

(** The collector as this package sees it: the four [Factory] interfaces with
    their [Type()] method, the four [MakeFactoryMap] functions, and the
    [NewFactory()] constructor of each imported component package. *)
Class Collector : Type := {
  extension_Factory : Type;
  receiver_Factory : Type;
  exporter_Factory : Type;
  processor_Factory : Type;

  extension_Type : extension_Factory → component.Type_;
  receiver_Type : receiver_Factory → component.Type_;
  exporter_Type : exporter_Factory → component.Type_;
  processor_Type : processor_Factory → component.Type_;

  extension_MakeFactoryMap :
    list extension_Factory → gmap component.Type_ extension_Factory * error;
  receiver_MakeFactoryMap :
    list receiver_Factory → gmap component.Type_ receiver_Factory * error;
  exporter_MakeFactoryMap :
    list exporter_Factory → gmap component.Type_ exporter_Factory * error;
  processor_MakeFactoryMap :
    list processor_Factory → gmap component.Type_ processor_Factory * error;

  otlpreceiver_NewFactory : receiver_Factory;
  fluentforwardreceiver_NewFactory : receiver_Factory;
  filelogreceiver_NewFactory : receiver_Factory;
  dockerstatsreceiver_NewFactory : receiver_Factory;
  hostmetricsreceiver_NewFactory : receiver_Factory;
  k8sclusterreceiver_NewFactory : receiver_Factory;
  k8seventsreceiver_NewFactory : receiver_Factory;
  kubeletstatsreceiver_NewFactory : receiver_Factory;
  prometheusreceiver_NewFactory : receiver_Factory;

  loggingexporter_NewFactory : exporter_Factory;
  otlpexporter_NewFactory : exporter_Factory;
  otlphttpexporter_NewFactory : exporter_Factory;

  batchprocessor_NewFactory : processor_Factory;
  memorylimiterprocessor_NewFactory : processor_Factory;
  filterprocessor_NewFactory : processor_Factory;
  attributesprocessor_NewFactory : processor_Factory;
  resourceprocessor_NewFactory : processor_Factory;
  resourcedetectionprocessor_NewFactory : processor_Factory;
  k8sattributesprocessor_NewFactory : processor_Factory
}.

Module otelcol.
(** [otelcol.Factories]: one map per kind of component.  A nil map and an
    empty map read the same; both are [∅]. *)
Record Factories {C : Collector} : Type := mkFactories {
  Receivers : gmap component.Type_ receiver_Factory;
  Processors : gmap component.Type_ processor_Factory;
  Exporters : gmap component.Type_ exporter_Factory;
  Extensions : gmap component.Type_ extension_Factory
}.

(** [otelcol.Factories{}] *)
Definition zero {C : Collector} : Factories := mkFactories _ ∅ ∅ ∅ ∅.
End otelcol.

(** The collector's [MakeFactoryMap], the same code in each of the packages
    extension, receiver, exporter and processor ([kind] is the package's word
    in the message): the factories are entered under their type in the order
    given, and the first factory whose type is already a key stops the loop
    with an error; the map built so far is returned beside it. *)
Section MakeFactoryMap.
Context {F : Type} (Type_of : F → component.Type_) (kind : string).

Fixpoint MakeFactoryMap_range (fMap : gmap component.Type_ F)
    (factories : list F) : gmap component.Type_ F * error :=
  match factories with
  | [] => (fMap, nil_error)
  | f :: rest =>
      match fMap !! Type_of f with
      | Some _ =>
          (fMap, Some (Errorf ("duplicate " +:+ kind +:+ " factory %q")
                              [Type_of f]))
      | None => MakeFactoryMap_range (<[Type_of f := f]> fMap) rest
      end
  end.

Definition MakeFactoryMap (factories : list F)
  : gmap component.Type_ F * error :=
  MakeFactoryMap_range ∅ factories.
End MakeFactoryMap.

(** A collector whose four [MakeFactoryMap] functions are the code above. *)
Class Upstream (C : Collector) : Prop := {
  extension_MakeFactoryMap_eq l :
    extension_MakeFactoryMap l = MakeFactoryMap extension_Type "extension" l;
  receiver_MakeFactoryMap_eq l :
    receiver_MakeFactoryMap l = MakeFactoryMap receiver_Type "receiver" l;
  exporter_MakeFactoryMap_eq l :
    exporter_MakeFactoryMap l = MakeFactoryMap exporter_Type "exporter" l;
  processor_MakeFactoryMap_eq l :
    processor_MakeFactoryMap l = MakeFactoryMap processor_Type "processor" l
}.

(* ===================================================================== *)
(** ** Package [agent]: KubeAgent                                         *)
(* ===================================================================== *)

(** [KubeAgent] implements the Agent interface for Kubernetes. *)
Record KubeAgent : Type := mkKubeAgent {
  apiKey : string;
  target : string;
  enableSytheticMonitoring : bool;
  configCheckInterval : string;
  apiURLForConfigCheck : string;
  logger : option zap.Logger;
  dockerEndpoint : string
}.

#[global] Instance KubeAgent_eq_dec : EqDecision KubeAgent.
Proof. solve_decision. Defined.

(** [var cfg KubeAgent]: every field at its zero value. *)
Definition KubeAgent_zero : KubeAgent :=
  mkKubeAgent "" "" false "" "" None "".

(** [type KubeOptions func(h *KubeAgent)]: the state of [h] after the call,
    from its state before. *)
Definition KubeOptions : Type := KubeAgent → KubeAgent.

Definition WithKubeAgentApiKey (key : string) : KubeOptions := fun h =>
  mkKubeAgent key (target h) (enableSytheticMonitoring h)
    (configCheckInterval h) (apiURLForConfigCheck h) (logger h)
    (dockerEndpoint h).

Definition WithKubeAgentTarget (t : string) : KubeOptions := fun h =>
  mkKubeAgent (apiKey h) t (enableSytheticMonitoring h)
    (configCheckInterval h) (apiURLForConfigCheck h) (logger h)
    (dockerEndpoint h).

Definition WithKubeAgentEnableSyntheticMonitoring (e : bool) : KubeOptions :=
  fun h =>
  mkKubeAgent (apiKey h) (target h) e
    (configCheckInterval h) (apiURLForConfigCheck h) (logger h)
    (dockerEndpoint h).

Definition WithKubeAgentConfigCheckInterval (c : string) : KubeOptions :=
  fun h =>
  mkKubeAgent (apiKey h) (target h) (enableSytheticMonitoring h)
    c (apiURLForConfigCheck h) (logger h)
    (dockerEndpoint h).

Definition WithKubeAgentApiURLForConfigCheck (u : string) : KubeOptions :=
  fun h =>
  mkKubeAgent (apiKey h) (target h) (enableSytheticMonitoring h)
    (configCheckInterval h) u (logger h)
    (dockerEndpoint h).

Definition WithKubeAgentLogger (l : option zap.Logger) : KubeOptions :=
  fun h =>
  mkKubeAgent (apiKey h) (target h) (enableSytheticMonitoring h)
    (configCheckInterval h) (apiURLForConfigCheck h) l
    (dockerEndpoint h).

Definition WithKubeAgentDockerEndpoint (endpoint : string) : KubeOptions :=
  fun h =>
  mkKubeAgent (apiKey h) (target h) (enableSytheticMonitoring h)
    (configCheckInterval h) (apiURLForConfigCheck h) (logger h)
    endpoint.

(** [NewKubeAgent(opts ...KubeOptions)].  [zap_NewProduction] is what the
    call [zap.NewProduction()] returns; its error is dropped by the code. *)
Definition NewKubeAgent (zap_NewProduction : option zap.Logger * error)
    (opts : list KubeOptions) : KubeAgent :=
  let cfg := KubeAgent_zero in
  let cfg := foldl (fun cfg apply => apply cfg) cfg opts in
  let cfg :=
    match logger cfg with
    | None =>
        mkKubeAgent (apiKey cfg) (target cfg) (enableSytheticMonitoring cfg)
          (configCheckInterval cfg) (apiURLForConfigCheck cfg)
          (fst zap_NewProduction) (dockerEndpoint cfg)
    | Some _ => cfg
    end in
  cfg.

(** [(k *KubeAgent) GetUpdatedYAMLPath() (string, error)].  [isSocketFn] is
    the package's socket probe.  Go evaluates [dockerSocketPath[1]] only when
    the length test on its left is false, so the index is in range whenever
    it is read. *)
Definition GetUpdatedYAMLPath (isSocketFn : string → bool) (k : KubeAgent)
  : (string * error) * KubeAgent :=
  let yamlPath := "/app/otel-config.yaml" in
  let dockerSocketPath := gostrings.Split (dockerEndpoint k) "//" in
  let yamlPath :=
    if negb (length dockerSocketPath =? 2)
       || negb (isSocketFn (nth 1 dockerSocketPath ""))
    then "/app/otel-config-nodocker.yaml"
    else yamlPath in
  ((yamlPath, nil_error), k).

Section GetFactories.
Context {C : Collector}.

(** The argument lists of the four [MakeFactoryMap] calls. *)
Definition extension_factories : list extension_Factory := [].

Definition receiver_factories : list receiver_Factory :=
  [ otlpreceiver_NewFactory;
    fluentforwardreceiver_NewFactory;
    filelogreceiver_NewFactory;
    dockerstatsreceiver_NewFactory;
    hostmetricsreceiver_NewFactory;
    k8sclusterreceiver_NewFactory;
    k8seventsreceiver_NewFactory;
    kubeletstatsreceiver_NewFactory;
    prometheusreceiver_NewFactory ].

Definition exporter_factories : list exporter_Factory :=
  [ loggingexporter_NewFactory;
    otlpexporter_NewFactory;
    otlphttpexporter_NewFactory ].

Definition processor_factories : list processor_Factory :=
  [ batchprocessor_NewFactory;
    memorylimiterprocessor_NewFactory;
    filterprocessor_NewFactory;
    attributesprocessor_NewFactory;
    resourceprocessor_NewFactory;
    resourcedetectionprocessor_NewFactory;
    k8sattributesprocessor_NewFactory ].

(** [(k *KubeAgent) GetFactories(ctx context.Context)
      (otelcol.Factories, error)] *)
Definition GetFactories (ctx : context.Context) (k : KubeAgent)
  : (otelcol.Factories * error) * KubeAgent :=
  let factories := otelcol.zero in
  let '(m, err) := extension_MakeFactoryMap extension_factories in
  let factories :=
    otelcol.mkFactories _ (otelcol.Receivers factories)
      (otelcol.Processors factories) (otelcol.Exporters factories) m in
  match err with
  | Some _ => ((otelcol.zero, err), k)
  | None =>
  let '(m, err) := receiver_MakeFactoryMap receiver_factories in
  let factories :=
    otelcol.mkFactories _ m
      (otelcol.Processors factories) (otelcol.Exporters factories)
      (otelcol.Extensions factories) in
  match err with
  | Some _ => ((otelcol.zero, err), k)
  | None =>
  let '(m, err) := exporter_MakeFactoryMap exporter_factories in
  let factories :=
    otelcol.mkFactories _ (otelcol.Receivers factories)
      (otelcol.Processors factories) m
      (otelcol.Extensions factories) in
  match err with
  | Some _ => ((otelcol.zero, err), k)
  | None =>
  let '(m, err) := processor_MakeFactoryMap processor_factories in
  let factories :=
    otelcol.mkFactories _ (otelcol.Receivers factories)
      m (otelcol.Exporters factories)
      (otelcol.Extensions factories) in
  match err with
  | Some _ => ((otelcol.zero, err), k)
  | None => ((factories, nil_error), k)
  end end end end.
End GetFactories.

(* ===================================================================== *)
(** ** Vocabulary of the specification                                    *)
(* ===================================================================== *)

(** The fields of the identity and the values they hold. *)
Inductive Field : Type :=
| FApiKey
| FTarget
| FEnableSytheticMonitoring
| FConfigCheckInterval
| FApiURLForConfigCheck
| FLogger
| FDockerEndpoint.

#[global] Instance Field_eq_dec : EqDecision Field.
Proof. solve_decision. Defined.

Inductive Value : Type :=
| VString (s : string)
| VBool (b : bool)
| VLogger (l : option zap.Logger).

#[global] Instance Value_eq_dec : EqDecision Value.
Proof. solve_decision. Defined.

Definition read (f : Field) (k : KubeAgent) : Value :=
  match f with
  | FApiKey => VString (apiKey k)
  | FTarget => VString (target k)
  | FEnableSytheticMonitoring => VBool (enableSytheticMonitoring k)
  | FConfigCheckInterval => VString (configCheckInterval k)
  | FApiURLForConfigCheck => VString (apiURLForConfigCheck k)
  | FLogger => VLogger (logger k)
  | FDockerEndpoint => VString (dockerEndpoint k)
  end.

(** An option as the caller writes it: one of the seven constructors of the
    package, with its argument. *)
Inductive option_call : Type :=
| CallApiKey (key : string)
| CallTarget (t : string)
| CallEnableSyntheticMonitoring (e : bool)
| CallConfigCheckInterval (c : string)
| CallApiURLForConfigCheck (u : string)
| CallLogger (l : option zap.Logger)
| CallDockerEndpoint (endpoint : string).

(** The [KubeOptions] closure the call evaluates to. *)
Definition build (c : option_call) : KubeOptions :=
  match c with
  | CallApiKey key => WithKubeAgentApiKey key
  | CallTarget t => WithKubeAgentTarget t
  | CallEnableSyntheticMonitoring e => WithKubeAgentEnableSyntheticMonitoring e
  | CallConfigCheckInterval c => WithKubeAgentConfigCheckInterval c
  | CallApiURLForConfigCheck u => WithKubeAgentApiURLForConfigCheck u
  | CallLogger l => WithKubeAgentLogger l
  | CallDockerEndpoint endpoint => WithKubeAgentDockerEndpoint endpoint
  end.

(** The field an option is documented to set, and the value it carries. *)
Definition field_of (c : option_call) : Field :=
  match c with
  | CallApiKey _ => FApiKey
  | CallTarget _ => FTarget
  | CallEnableSyntheticMonitoring _ => FEnableSytheticMonitoring
  | CallConfigCheckInterval _ => FConfigCheckInterval
  | CallApiURLForConfigCheck _ => FApiURLForConfigCheck
  | CallLogger _ => FLogger
  | CallDockerEndpoint _ => FDockerEndpoint
  end.

Definition value_of (c : option_call) : Value :=
  match c with
  | CallApiKey key => VString key
  | CallTarget t => VString t
  | CallEnableSyntheticMonitoring e => VBool e
  | CallConfigCheckInterval c => VString c
  | CallApiURLForConfigCheck u => VString u
  | CallLogger l => VLogger l
  | CallDockerEndpoint endpoint => VString endpoint
  end.

(** The path selection as the specification words it: the endpoint is split
    on the FIRST "//" only, so the second segment is everything after it. *)
Definition selectConfigPath_first_split (isSocketFn : string → bool)
    (localRuntimeEndpoint : string) : string :=
  match gostrings.SplitN2 localRuntimeEndpoint "//" with
  | [_; second] =>
      if isSocketFn second then "/app/otel-config.yaml"
      else "/app/otel-config-nodocker.yaml"
  | _ => "/app/otel-config-nodocker.yaml"
  end.

(** Whether the text after the first "//" of [endpoint] holds another "//". *)
Definition further_separator (endpoint : string) : bool :=
  match gostrings.Cut endpoint "//" with
  | Some (_, rest) => gostrings.Contains rest "//"
  | None => false
  end.

(** The errors of the four [MakeFactoryMap] calls, in the order
    [GetFactories] makes them, and the first of them that is not nil. *)
Definition registration_errors {C : Collector} : list error :=
  [ (extension_MakeFactoryMap extension_factories).2;
    (receiver_MakeFactoryMap receiver_factories).2;
    (exporter_MakeFactoryMap exporter_factories).2;
    (processor_MakeFactoryMap processor_factories).2 ].

Fixpoint first_error (errs : list error) : error :=
  match errs with
  | [] => nil_error
  | Some e :: _ => Some e
  | None :: rest => first_error rest
  end.

(** [name] is the type of two factories at different places of [l]. *)
Definition declared_twice {F : Type} (Type_of : F → component.Type_)
    (l : list F) (name : component.Type_) : Prop :=
  ∃ l1 f l2 g l3,
    l = l1 ++ f :: l2 ++ g :: l3 ∧ Type_of f = name ∧ Type_of g = name.

(* ===================================================================== *)
(** ** A concrete collector, to run the assembly on                       *)
(* ===================================================================== *)

(** A factory value: the package that built it and the type it declares. *)
Record factory : Type := mkFactory {
  package : string;
  declared : component.Type_
}.

(** The collector whose [MakeFactoryMap] is the code above and whose packages
    declare the types [types] gives them. *)
Definition collector_of (types : string → component.Type_) : Collector := {|
  extension_Factory := factory;
  receiver_Factory := factory;
  exporter_Factory := factory;
  processor_Factory := factory;
  extension_Type := declared;
  receiver_Type := declared;
  exporter_Type := declared;
  processor_Type := declared;
  extension_MakeFactoryMap := MakeFactoryMap declared "extension";
  receiver_MakeFactoryMap := MakeFactoryMap declared "receiver";
  exporter_MakeFactoryMap := MakeFactoryMap declared "exporter";
  processor_MakeFactoryMap := MakeFactoryMap declared "processor";
  otlpreceiver_NewFactory := mkFactory "otlpreceiver" (types "otlpreceiver");
  fluentforwardreceiver_NewFactory :=
    mkFactory "fluentforwardreceiver" (types "fluentforwardreceiver");
  filelogreceiver_NewFactory :=
    mkFactory "filelogreceiver" (types "filelogreceiver");
  dockerstatsreceiver_NewFactory :=
    mkFactory "dockerstatsreceiver" (types "dockerstatsreceiver");
  hostmetricsreceiver_NewFactory :=
    mkFactory "hostmetricsreceiver" (types "hostmetricsreceiver");
  k8sclusterreceiver_NewFactory :=
    mkFactory "k8sclusterreceiver" (types "k8sclusterreceiver");
  k8seventsreceiver_NewFactory :=
    mkFactory "k8seventsreceiver" (types "k8seventsreceiver");
  kubeletstatsreceiver_NewFactory :=
    mkFactory "kubeletstatsreceiver" (types "kubeletstatsreceiver");
  prometheusreceiver_NewFactory :=
    mkFactory "prometheusreceiver" (types "prometheusreceiver");
  loggingexporter_NewFactory :=
    mkFactory "loggingexporter" (types "loggingexporter");
  otlpexporter_NewFactory := mkFactory "otlpexporter" (types "otlpexporter");
  otlphttpexporter_NewFactory :=
    mkFactory "otlphttpexporter" (types "otlphttpexporter");
  batchprocessor_NewFactory :=
    mkFactory "batchprocessor" (types "batchprocessor");
  memorylimiterprocessor_NewFactory :=
    mkFactory "memorylimiterprocessor" (types "memorylimiterprocessor");
  filterprocessor_NewFactory :=
    mkFactory "filterprocessor" (types "filterprocessor");
  attributesprocessor_NewFactory :=
    mkFactory "attributesprocessor" (types "attributesprocessor");
  resourceprocessor_NewFactory :=
    mkFactory "resourceprocessor" (types "resourceprocessor");
  resourcedetectionprocessor_NewFactory :=
    mkFactory "resourcedetectionprocessor" (types "resourcedetectionprocessor");
  k8sattributesprocessor_NewFactory :=
    mkFactory "k8sattributesprocessor" (types "k8sattributesprocessor")
|}.

(** The types the imported packages declare in the collector distribution
    this agent is built against.  The receiver and the exporter of the OTLP
    protocol share the name "otlp". *)
Definition opentelemetry_types_table : list (string * component.Type_) :=
  [ ("otlpreceiver", "otlp");
    ("fluentforwardreceiver", "fluentforward");
    ("filelogreceiver", "filelog");
    ("dockerstatsreceiver", "docker_stats");
    ("hostmetricsreceiver", "hostmetrics");
    ("k8sclusterreceiver", "k8s_cluster");
    ("k8seventsreceiver", "k8s_events");
    ("kubeletstatsreceiver", "kubeletstats");
    ("prometheusreceiver", "prometheus");
    ("loggingexporter", "logging");
    ("otlpexporter", "otlp");
    ("otlphttpexporter", "otlphttp");
    ("batchprocessor", "batch");
    ("memorylimiterprocessor", "memory_limiter");
    ("filterprocessor", "filter");
    ("attributesprocessor", "attributes");
    ("resourceprocessor", "resource");
    ("resourcedetectionprocessor", "resourcedetection");
    ("k8sattributesprocessor", "k8sattributes") ].

Fixpoint assoc (table : list (string * component.Type_)) (pkg : string)
  : component.Type_ :=
  match table with
  | [] => pkg
  | (p, t) :: rest => if decide (p = pkg) then t else assoc rest pkg
  end.

Definition opentelemetry : Collector :=
  collector_of (assoc opentelemetry_types_table).

(** The same distribution with a fluentforward receiver that declares the
    type "otlp", like the OTLP receiver before it in the list. *)
Definition colliding : Collector :=
  collector_of (assoc (("fluentforwardreceiver", "otlp")
                         :: opentelemetry_types_table)).

(** A distribution in which a receiver and an exporter each declare the type
    of an earlier factory of their kind. *)
Definition colliding_twice : Collector :=
  collector_of (assoc (("kubeletstatsreceiver", "hostmetrics")
                         :: ("otlphttpexporter", "logging")
                         :: opentelemetry_types_table)).

(* ===================================================================== *)
(** ** Facts about the string functions                                   *)
(* ===================================================================== *)

Section gostrings_facts.
Import gostrings.

Lemma app_nil_l (s : string) : "" +:+ s = s.
Proof. reflexivity. Qed.

Lemma app_cons (c : ascii) (a s : string) :
  String c a +:+ s = String c (a +:+ s).
Proof. reflexivity. Qed.

Lemma HasPrefix_app (p r : string) : HasPrefix (p +:+ r) p = true.
Proof.
  induction p as [|c p IH]; [reflexivity|].
  rewrite app_cons. cbn [HasPrefix]. by rewrite decide_True.
Qed.

Lemma slice_from_app (p r : string) : slice_from (String.length p) (p +:+ r) = r.
Proof.
  induction p as [|c p IH]; [by destruct r|].
  rewrite app_cons. exact IH.
Qed.

Lemma HasPrefix_true (s p : string) :
  HasPrefix s p = true → s = p +:+ slice_from (String.length p) s.
Proof.
  revert s. induction p as [|c p IH]; intros s Hp.
  - by destruct s.
  - destruct s as [|d s]; [discriminate|].
    cbn [HasPrefix] in Hp. case_decide; [|discriminate]. subst d.
    rewrite app_cons. cbn [String.length slice_from]. f_equal. by apply IH.
Qed.

(** What [Cut] returns is a decomposition of [s] around [sep]. *)
Lemma Cut_Some (s sep before after : string) :
  Cut s sep = Some (before, after) → s = before +:+ sep +:+ after.
Proof.
  revert before. induction s as [|c s IH]; intros before Hcut.
  - cbn [Cut] in Hcut. destruct (HasPrefix "" sep) eqn:Hp; [|discriminate].
    injection Hcut as <- <-. rewrite app_nil_l. by apply HasPrefix_true.
  - cbn [Cut] in Hcut. destruct (HasPrefix (String c s) sep) eqn:Hp.
    + injection Hcut as <- <-. rewrite app_nil_l. by apply HasPrefix_true.
    + destruct (Cut s sep) as [[b a]|] eqn:Hc; [|discriminate].
      injection Hcut as <- <-. rewrite app_cons. f_equal. by apply IH.
Qed.

(** [Cut] finds no separator only when there is none. *)
Lemma Cut_None (s sep : string) :
  Cut s sep = None → ∀ a b, s ≠ a +:+ sep +:+ b.
Proof.
  induction s as [|c s IH]; intros Hcut a b Hs.
  - cbn [Cut] in Hcut. destruct (HasPrefix "" sep) eqn:Hp; [discriminate|].
    destruct a; [|discriminate]. rewrite app_nil_l in Hs.
    rewrite Hs, HasPrefix_app in Hp. discriminate.
  - cbn [Cut] in Hcut. destruct (HasPrefix (String c s) sep) eqn:Hp;
      [discriminate|].
    destruct (Cut s sep) as [[? ?]|] eqn:Hc; [discriminate|].
    destruct a as [|d a].
    + rewrite app_nil_l in Hs. rewrite Hs, HasPrefix_app in Hp. discriminate.
    + rewrite app_cons in Hs. injection Hs as _ Hs. by eapply IH.
Qed.

Lemma Contains_true_iff (s substr : string) :
  Contains s substr = true ↔ ∃ a b, s = a +:+ substr +:+ b.
Proof.
  unfold Contains. destruct (Cut s substr) as [[a b]|] eqn:Hc.
  - split; [|done]. intros _. exists a, b. by apply Cut_Some.
  - split; [done|]. intros (a & b & Hs). by eapply Cut_None in Hs.
Qed.

Lemma Contains_false_iff (s substr : string) :
  Contains s substr = false ↔ ∀ a b, s ≠ a +:+ substr +:+ b.
Proof.
  rewrite <- not_true_iff_false, Contains_true_iff. split.
  - intros Hno a b Hs. apply Hno. by exists a, b.
  - intros Hno (a & b & Hs). by apply (Hno a b).
Qed.

(** One turn of the splitting loop. *)
Lemma genSplit_unfold (s : string) (c : ascii) (sep : string) :
  genSplit s c sep =
    match Cut s (String c sep) with
    | None => [s]
    | Some (before, after) => before :: genSplit after c sep
    end.
Proof.
  funelim (genSplit s c sep);
    match goal with Hc : Cut _ _ = _ |- _ => by rewrite Hc end.
Qed.

Lemma genSplit_not_nil (s : string) (c : ascii) (sep : string) :
  genSplit s c sep ≠ [].
Proof.
  rewrite genSplit_unfold. by destruct (Cut s (String c sep)) as [[? ?]|].
Qed.

Lemma Split_no_separator (s : string) (c : ascii) (sep : string) :
  Contains s (String c sep) = false → Split s (String c sep) = [s].
Proof.
  unfold Contains, Split. intros Hc. rewrite genSplit_unfold.
  by destruct (Cut s (String c sep)).
Qed.

Lemma Split_cut (s : string) (c : ascii) (sep before after : string) :
  Cut s (String c sep) = Some (before, after) →
  Split s (String c sep) = before :: Split after (String c sep).
Proof. unfold Split. intros Hc. by rewrite genSplit_unfold, Hc. Qed.

(** The separator [Cut] finds is the leftmost one. *)
Lemma Cut_leftmost (s sep a b a' b' : string) :
  Cut s sep = Some (a, b) → s = a' +:+ sep +:+ b' →
  String.length a ≤ String.length a'.
Proof.
  revert a a'. induction s as [|c s IH]; intros a a' Hc Hs.
  - cbn [Cut] in Hc. destruct (HasPrefix "" sep); [|discriminate].
    injection Hc as <- <-. cbn. lia.
  - cbn [Cut] in Hc. destruct (HasPrefix (String c s) sep) eqn:Hp.
    + injection Hc as <- <-. cbn. lia.
    + destruct (Cut s sep) as [[a0 b0]|] eqn:Hc0; [|discriminate].
      injection Hc as <- <-. destruct a' as [|d a'].
      * rewrite app_nil_l in Hs. rewrite Hs, HasPrefix_app in Hp.
        discriminate.
      * rewrite app_cons in Hs. injection Hs as _ Hs.
        cbn [String.length]. specialize (IH _ _ eq_refl Hs). lia.
Qed.

Lemma app_inj_length (a a' r r' : string) :
  a +:+ r = a' +:+ r' → String.length a = String.length a' →
  a = a' ∧ r = r'.
Proof.
  revert a'. induction a as [|c a IH]; intros [|d a'] Hs Hlen;
    try discriminate.
  - by rewrite !app_nil_l in Hs.
  - rewrite !app_cons in Hs. injection Hs as <- Hs.
    cbn [String.length] in Hlen. injection Hlen as Hlen.
    by destruct (IH _ Hs Hlen) as [<- <-].
Qed.

(** So [Cut] returns the decomposition [p ++ sep ++ r] as soon as no
    separator starts before the end of [p]. *)
Lemma Cut_app (p sep r : string) :
  (∀ a b, p +:+ sep +:+ r = a +:+ sep +:+ b →
          String.length p ≤ String.length a) →
  Cut (p +:+ sep +:+ r) sep = Some (p, r).
Proof.
  intros Hleft.
  destruct (Cut (p +:+ sep +:+ r) sep) as [[a b]|] eqn:Hc.
  - pose proof (Cut_Some _ _ _ _ Hc) as Hs.
    pose proof (Hleft _ _ Hs) as Hle.
    pose proof (Cut_leftmost _ _ _ _ p r Hc eq_refl) as Hge.
    destruct (app_inj_length p a _ _ Hs ltac:(lia)) as [<- Hr].
    destruct (app_inj_length sep sep _ _ Hr eq_refl) as [_ <-]. done.
  - by eapply Cut_None in Hc.
Qed.
End gostrings_facts.

Example Split_unix : gostrings.Split "unix:///var/run/docker.sock" "//"
                     = ["unix:"; "/var/run/docker.sock"].
Proof. reflexivity. Qed.

Example Split_empty : gostrings.Split "" "//" = [""].
Proof. reflexivity. Qed.

Example Split_many : gostrings.Split "a//b//c" "//" = ["a"; "b"; "c"].
Proof. reflexivity. Qed.

Example Split_slashes : gostrings.Split "a////b" "//" = ["a"; ""; "b"].
Proof. reflexivity. Qed.

(* ===================================================================== *)
(** ** GetUpdatedYAMLPath                                                 *)
(* ===================================================================== *)

Section GetUpdatedYAMLPath_facts.
Import gostrings.
Variable isSocketFn : string → bool.

(** The path returned, read off the first cut of the endpoint. *)
Lemma GetUpdatedYAMLPath_by_cut (k : KubeAgent) :
  (GetUpdatedYAMLPath isSocketFn k).1.1 =
    match Cut (dockerEndpoint k) "//" with
    | None => "/app/otel-config-nodocker.yaml"
    | Some (_, rest) =>
        if Contains rest "//" then "/app/otel-config-nodocker.yaml"
        else if isSocketFn rest then "/app/otel-config.yaml"
        else "/app/otel-config-nodocker.yaml"
    end.
Proof.
  unfold GetUpdatedYAMLPath. cbn [fst].
  destruct (Cut (dockerEndpoint k) "//") as [[before rest]|] eqn:Hc.
  - rewrite (Split_cut _ _ _ _ _ Hc).
    destruct (Contains rest "//") eqn:Hr.
    + unfold Contains in Hr.
      destruct (Cut rest "//") as [[b2 r2]|] eqn:Hc2; [|discriminate].
      rewrite (Split_cut _ _ _ _ _ Hc2). unfold Split.
      pose proof (genSplit_not_nil r2 "/" "/") as Hne.
      by destruct (genSplit r2 "/" "/").
    + rewrite (Split_no_separator _ _ _ Hr). cbn.
      by destruct (isSocketFn rest).
  - rewrite Split_no_separator; [done|]. unfold Contains. by rewrite Hc.
Qed.

Lemma GetUpdatedYAMLPath_error (k : KubeAgent) :
  (GetUpdatedYAMLPath isSocketFn k).1.2 = nil_error.
Proof. reflexivity. Qed.

Lemma GetUpdatedYAMLPath_two_segments (k : KubeAgent) (a sock : string) :
  Split (dockerEndpoint k) "//" = [a; sock] →
  (GetUpdatedYAMLPath isSocketFn k).1.1 =
    if isSocketFn sock then "/app/otel-config.yaml"
    else "/app/otel-config-nodocker.yaml".
Proof.
  intros Hs. unfold GetUpdatedYAMLPath. rewrite Hs. cbn.
  by destruct (isSocketFn sock).
Qed.

Lemma Split_two_segments (s a sock : string) :
  Split s "//" = [a; sock] ↔
  Cut s "//" = Some (a, sock) ∧ Contains sock "//" = false.
Proof.
  split.
  - intros Hs. destruct (Cut s "//") as [[b r]|] eqn:Hc.
    + rewrite (Split_cut _ _ _ _ _ Hc) in Hs. injection Hs as -> Hs.
      change (Split r "//" = [sock]) in Hs.
      destruct (Cut r "//") as [[b2 r2]|] eqn:Hc2.
      * rewrite (Split_cut _ _ _ _ _ Hc2) in Hs. injection Hs as _ Hs.
        by apply genSplit_not_nil in Hs.
      * rewrite Split_no_separator in Hs by (unfold Contains; by rewrite Hc2).
        injection Hs as ->. split; [done|]. unfold Contains. by rewrite Hc2.
    + rewrite Split_no_separator in Hs by (unfold Contains; by rewrite Hc).
      discriminate.
  - intros [Hc Hr]. by rewrite (Split_cut _ _ _ _ _ Hc), Split_no_separator.
Qed.
End GetUpdatedYAMLPath_facts.

(** C1, as the code has it.  [GetUpdatedYAMLPath] splits the endpoint at EVERY
    "//" ([strings.Split]), not only at the first: it answers
    "/app/otel-config.yaml" exactly when that split yields exactly two
    segments and the probe accepts the second one, and
    "/app/otel-config-nodocker.yaml" otherwise.  So an endpoint whose text
    after the first "//" holds another "//" gets the no-docker path whatever
    the probe says, and on every other endpoint the result is the one of the
    first-split algorithm. *)
Theorem GetUpdatedYAMLPath_algorithm (isSocketFn : string → bool)
    (k : KubeAgent) :
  (GetUpdatedYAMLPath isSocketFn k).1 =
    (match gostrings.Split (dockerEndpoint k) "//" with
     | [_; sock] =>
         if isSocketFn sock then "/app/otel-config.yaml"
         else "/app/otel-config-nodocker.yaml"
     | _ => "/app/otel-config-nodocker.yaml"
     end, nil_error)
  ∧ (GetUpdatedYAMLPath isSocketFn k).1 =
    (if further_separator (dockerEndpoint k)
     then "/app/otel-config-nodocker.yaml"
     else selectConfigPath_first_split isSocketFn (dockerEndpoint k),
     nil_error).
Proof.
  split.
  - unfold GetUpdatedYAMLPath. cbn [fst]. f_equal.
    destruct (gostrings.Split (dockerEndpoint k) "//")
      as [|a [|sock [|c l]]]; try reflexivity.
    cbn. by destruct (isSocketFn sock).
  - apply injective_projections; [|reflexivity].
    rewrite GetUpdatedYAMLPath_by_cut. cbn [fst].
    unfold further_separator, selectConfigPath_first_split, gostrings.SplitN2.
    destruct (gostrings.Cut (dockerEndpoint k) "//") as [[before rest]|];
      [|reflexivity].
    by destruct (gostrings.Contains rest "//").
Qed.

(** C1, the claim as stated fails: the endpoint "unix:///run//live.sock" has
    the remainder "/run//live.sock" after its first "//", which holds a
    further "//"; with a probe that accepts exactly that remainder the
    first-split algorithm selects "/app/otel-config.yaml", and the code does
    not: it returns "/app/otel-config-nodocker.yaml". *)
Lemma GetUpdatedYAMLPath_not_first_split :
  gostrings.Cut "unix:///run//live.sock" "//"
    = Some ("unix:", "/run//live.sock")
  ∧ gostrings.Contains "/run//live.sock" "//" = true
  ∧ selectConfigPath_first_split
      (λ s, bool_decide (s = "/run//live.sock")) "unix:///run//live.sock"
    = "/app/otel-config.yaml"
  ∧ (GetUpdatedYAMLPath (λ s, bool_decide (s = "/run//live.sock"))
       (WithKubeAgentDockerEndpoint "unix:///run//live.sock"
          KubeAgent_zero)).1.1
    ≠ selectConfigPath_first_split
        (λ s, bool_decide (s = "/run//live.sock")) "unix:///run//live.sock"
  ∧ (GetUpdatedYAMLPath (λ s, bool_decide (s = "/run//live.sock"))
       (WithKubeAgentDockerEndpoint "unix:///run//live.sock" KubeAgent_zero)).1
    = ("/app/otel-config-nodocker.yaml", nil_error).
Proof. repeat split; try reflexivity. discriminate. Qed.

(** C2.  [GetUpdatedYAMLPath] returns "/app/otel-config-nodocker.yaml" for an
    identity whose dockerEndpoint is empty, for one whose dockerEndpoint
    contains no "//", and for one whose endpoint splits into exactly two
    segments the second of which the probe rejects. *)
Theorem GetUpdatedYAMLPath_reduced (isSocketFn : string → bool)
    (k : KubeAgent) :
  dockerEndpoint k = ""
  ∨ gostrings.Contains (dockerEndpoint k) "//" = false
  ∨ (∃ a sock, gostrings.Split (dockerEndpoint k) "//" = [a; sock]
               ∧ isSocketFn sock = false) →
  (GetUpdatedYAMLPath isSocketFn k).1
    = ("/app/otel-config-nodocker.yaml", nil_error).
Proof.
  intros Hcases. apply injective_projections; [|reflexivity]. cbn [fst].
  destruct Hcases as [Hempty|[Hnone|(a & sock & Hsplit & Hdead)]].
  - unfold GetUpdatedYAMLPath. by rewrite Hempty.
  - rewrite GetUpdatedYAMLPath_by_cut. unfold gostrings.Contains in Hnone.
    by destruct (gostrings.Cut (dockerEndpoint k) "//").
  - by rewrite (GetUpdatedYAMLPath_two_segments _ _ _ _ Hsplit), Hdead.
Qed.

Lemma GetUpdatedYAMLPath_reduced_witness :
  (GetUpdatedYAMLPath (λ _, true) KubeAgent_zero).1
    = ("/app/otel-config-nodocker.yaml", nil_error)
  ∧ (GetUpdatedYAMLPath (λ _, true)
       (WithKubeAgentDockerEndpoint "/var/run/docker.sock" KubeAgent_zero)).1
    = ("/app/otel-config-nodocker.yaml", nil_error)
  ∧ (GetUpdatedYAMLPath (λ _, false)
       (WithKubeAgentDockerEndpoint "unix:///var/run/docker.sock"
          KubeAgent_zero)).1
    = ("/app/otel-config-nodocker.yaml", nil_error).
Proof.
  split; [|split].
  - apply GetUpdatedYAMLPath_reduced. left. reflexivity.
  - apply GetUpdatedYAMLPath_reduced. right. left. reflexivity.
  - apply GetUpdatedYAMLPath_reduced. right. right.
    exists "unix:", "/var/run/docker.sock". split; reflexivity.
Defined.

(** C3.  For a dockerEndpoint of the form "unix://" followed by a socket
    path that holds no "//" (as in "unix:///path/to/live.sock"), the split
    yields exactly the two segments "unix:" and the socket path, and when the
    probe accepts the socket path [GetUpdatedYAMLPath] returns
    "/app/otel-config.yaml". *)
Theorem GetUpdatedYAMLPath_full (isSocketFn : string → bool) (k : KubeAgent)
    (sock : string) :
  dockerEndpoint k = "unix://" +:+ sock →
  gostrings.Contains sock "//" = false →
  isSocketFn sock = true →
  gostrings.Split (dockerEndpoint k) "//" = ["unix:"; sock]
  ∧ (GetUpdatedYAMLPath isSocketFn k).1 = ("/app/otel-config.yaml", nil_error).
Proof.
  intros Hform Hone Hlive.
  assert (Hsplit : gostrings.Split (dockerEndpoint k) "//" = ["unix:"; sock]).
  { apply Split_two_segments. split; [|done]. rewrite Hform.
    cbn. by destruct sock. }
  split; [done|]. apply injective_projections; [|reflexivity]. cbn [fst].
  by rewrite (GetUpdatedYAMLPath_two_segments _ _ _ _ Hsplit), Hlive.
Qed.

Lemma GetUpdatedYAMLPath_full_witness :
  gostrings.Split "unix:///path/to/live.sock" "//"
    = ["unix:"; "/path/to/live.sock"]
  ∧ (GetUpdatedYAMLPath (λ s, bool_decide (s = "/path/to/live.sock"))
       (WithKubeAgentDockerEndpoint "unix:///path/to/live.sock"
          KubeAgent_zero)).1
    = ("/app/otel-config.yaml", nil_error).
Proof.
  apply (GetUpdatedYAMLPath_full (λ s, bool_decide (s = "/path/to/live.sock"))
           (WithKubeAgentDockerEndpoint "unix:///path/to/live.sock"
              KubeAgent_zero)
           "/path/to/live.sock"); reflexivity.
Defined.

(** C4.  [GetUpdatedYAMLPath] never fails: for every identity and every
    probe its error is nil and its path is one of the two fixed absolute
    paths "/app/otel-config.yaml" and "/app/otel-config-nodocker.yaml". *)
Theorem GetUpdatedYAMLPath_never_fails (isSocketFn : string → bool)
    (k : KubeAgent) :
  (GetUpdatedYAMLPath isSocketFn k).1.2 = nil_error
  ∧ ((GetUpdatedYAMLPath isSocketFn k).1.1 = "/app/otel-config.yaml"
     ∨ (GetUpdatedYAMLPath isSocketFn k).1.1
       = "/app/otel-config-nodocker.yaml")
  ∧ gostrings.HasPrefix (GetUpdatedYAMLPath isSocketFn k).1.1 "/" = true.
Proof.
  split; [reflexivity|].
  unfold GetUpdatedYAMLPath. cbn [fst].
  destruct (negb _ || negb _); split; auto.
Qed.

(* ===================================================================== *)
(** ** NewKubeAgent and the options                                       *)
(* ===================================================================== *)

(** Each constructor sets the field it is documented to set, and no other. *)
Lemma build_writes (c : option_call) (h : KubeAgent) :
  read (field_of c) (build c h) = value_of c.
Proof. by destruct c. Qed.

Lemma build_frame (c : option_call) (f : Field) (h : KubeAgent) :
  f ≠ field_of c → read f (build c h) = read f h.
Proof. by destruct c, f. Qed.

Lemma options_frame (f : Field) (opts : list option_call) (h : KubeAgent) :
  Forall (λ c, field_of c ≠ f) opts →
  read f (foldl (λ cfg apply, apply cfg) h (build <$> opts)) = read f h.
Proof.
  intros Hnone. revert h.
  induction Hnone as [|c opts Hc _ IH]; intros h; [done|].
  cbn [fmap list_fmap foldl]. rewrite IH. by apply build_frame.
Qed.

Lemma options_last (pre post : list option_call) (c : option_call)
    (h : KubeAgent) :
  Forall (λ c', field_of c' ≠ field_of c) post →
  read (field_of c)
       (foldl (λ cfg apply, apply cfg) h (build <$> pre ++ c :: post))
  = value_of c.
Proof.
  intros Hlater. rewrite fmap_app, foldl_app. cbn [fmap list_fmap foldl].
  rewrite options_frame by done. apply build_writes.
Qed.

(** The last step of [NewKubeAgent], on the configuration [cfg] the options
    left. *)
Lemma NewKubeAgent_read (zap_NewProduction : option zap.Logger * error)
    (opts : list KubeOptions) (f : Field) :
  read f (NewKubeAgent zap_NewProduction opts) =
    let cfg := foldl (λ cfg apply, apply cfg) KubeAgent_zero opts in
    if decide (read f cfg = VLogger None)
    then VLogger zap_NewProduction.1 else read f cfg.
Proof.
  unfold NewKubeAgent. cbn zeta.
  destruct (logger (foldl _ _ _)) as [l|] eqn:Hl.
  - rewrite decide_False; [done|]. destruct f; cbn; try done.
    rewrite Hl. by intros [=].
  - destruct f; cbn; try done. by rewrite Hl.
Qed.

(** C5, as the code has it.  For every sequence of options, a field other
    than the logger holds the value of the last option that sets it, and so
    does the logger when that value is not nil; when the last logger option
    sets nil, the logger field holds what [zap.NewProduction] returned
    instead.  The options are applied in the order given and none can
    fail. *)
Theorem NewKubeAgent_last_write_wins
    (zap_NewProduction : option zap.Logger * error)
    (pre post : list option_call) (c : option_call) :
  Forall (λ c', field_of c' ≠ field_of c) post →
  read (field_of c) (NewKubeAgent zap_NewProduction (build <$> pre ++ c :: post))
  = if decide (value_of c = VLogger None)
    then VLogger zap_NewProduction.1 else value_of c.
Proof.
  intros Hlater. rewrite NewKubeAgent_read. cbn zeta.
  by rewrite options_last.
Qed.

Lemma NewKubeAgent_last_write_wins_witness :
  read FApiKey
    (NewKubeAgent (Some 7%N, nil_error)
       (build <$> [CallApiKey "old"; CallLogger None] ++ CallApiKey "k"
                    :: [CallTarget "https://x"]))
  = VString "k"
  ∧ read FLogger
      (NewKubeAgent (Some 7%N, nil_error)
         (build <$> [CallLogger None] ++ CallLogger (Some 3%N)
                      :: [CallApiKey "k"]))
    = VLogger (Some 3%N).
Proof.
  split.
  - apply (NewKubeAgent_last_write_wins (Some 7%N, nil_error)
             [CallApiKey "old"; CallLogger None] [CallTarget "https://x"]
             (CallApiKey "k")).
    repeat constructor; discriminate.
  - apply (NewKubeAgent_last_write_wins (Some 7%N, nil_error)
             [CallLogger None] [CallApiKey "k"] (CallLogger (Some 3%N))).
    repeat constructor; discriminate.
Defined.

(** C5, the claim as stated fails on the logger: after the single option
    [WithKubeAgentLogger(nil)], with [zap.NewProduction] returning the logger
    1, the logger field is that logger and not the nil the option set. *)
Lemma NewKubeAgent_nil_logger_replaced :
  read (field_of (CallLogger None))
    (NewKubeAgent (Some 1%N, nil_error) (build <$> [CallLogger None]))
  ≠ value_of (CallLogger None).
Proof. discriminate. Qed.




(* ===================================================================== *)
(** ** MakeFactoryMap                                                     *)
(* ===================================================================== *)

Section MakeFactoryMap_facts.
Context {F : Type} (Type_of : F → component.Type_) (kind : string).

#[local] Abbreviation range := (MakeFactoryMap_range Type_of kind).

(** The loop ends without an error exactly when the types of the factories
    are pairwise distinct and none of them is a key already. *)
Lemma MakeFactoryMap_range_ok (l : list F) (m0 : gmap component.Type_ F) :
  (range m0 l).2 = nil_error ↔
  NoDup (Type_of <$> l) ∧ Forall (λ f, m0 !! Type_of f = None) l.
Proof.
  revert m0. induction l as [|f l IH]; intros m0.
  - cbn. split; [intros _; split; constructor|done].
  - cbn [MakeFactoryMap_range]. rewrite fmap_cons, NoDup_cons, Forall_cons.
    destruct (m0 !! Type_of f) as [g|] eqn:Hf.
    + cbn. split; [done|]. by intros (_ & [=] & _).
    + rewrite IH. split.
      * intros [Hnd Hall]. split; [split; [|done]|split; [done|]].
        -- intros (g & Hg & Hin)%list_elem_of_fmap.
           rewrite Forall_forall in Hall. specialize (Hall g Hin).
           rewrite <- Hg, lookup_insert_eq in Hall. discriminate.
        -- eapply Forall_impl; [exact Hall|]. intros g Hg. cbn in Hg.
           destruct (decide (Type_of f = Type_of g)) as [Heq|Hne].
           ++ rewrite Heq, lookup_insert_eq in Hg. discriminate.
           ++ by rewrite lookup_insert_ne in Hg.
      * intros [[Hnin Hnd] [_ Hall]]. split; [done|].
        rewrite Forall_forall in Hall. apply Forall_forall. intros g Hin.
        rewrite lookup_insert_ne; [by apply Hall|].
        intros Heq. apply Hnin. rewrite Heq. by apply list_elem_of_fmap_2.
Qed.

(** On success the keys are the keys there were and the types entered. *)
Lemma MakeFactoryMap_range_dom (l : list F) (m0 : gmap component.Type_ F) :
  (range m0 l).2 = nil_error →
  dom (range m0 l).1 = dom m0 ∪ list_to_set (Type_of <$> l).
Proof.
  revert m0. induction l as [|f l IH]; intros m0.
  - cbn. set_solver.
  - cbn [MakeFactoryMap_range].
    destruct (m0 !! Type_of f) as [g|] eqn:Hf; [done|].
    intros Hok. rewrite IH by done. rewrite dom_insert_L, fmap_cons.
    cbn [list_to_set]. set_solver.
Qed.

(** On success every entry is a factory under the type it declares. *)
Lemma MakeFactoryMap_range_lookup (l : list F) (m0 : gmap component.Type_ F)
    (n : component.Type_) (f : F) :
  (range m0 l).2 = nil_error →
  (range m0 l).1 !! n = Some f →
  m0 !! n = Some f ∨ (f ∈ l ∧ Type_of f = n).
Proof.
  revert m0. induction l as [|g l IH]; intros m0.
  - cbn. auto.
  - cbn [MakeFactoryMap_range].
    destruct (m0 !! Type_of g) as [g'|] eqn:Hg; [done|].
    intros Hok Hn. destruct (IH _ Hok Hn) as [Hin|[Hin Ht]].
    + destruct (decide (Type_of g = n)) as [Heq|Hne].
      * rewrite Heq, lookup_insert_eq in Hin. injection Hin as <-.
        right. split; [left|done].
      * rewrite lookup_insert_ne in Hin by done. by left.
    + right. split; [by right|done].
Qed.

(** An error names the type of one of the factories, with the package's
    message; the map returned beside it is the one built so far. *)
Lemma MakeFactoryMap_range_error (l : list F) (m0 : gmap component.Type_ F)
    (e : error_value) :
  (range m0 l).2 = Some e →
  ∃ f, f ∈ l ∧ e = Errorf ("duplicate " +:+ kind +:+ " factory %q")
                          [Type_of f].
Proof.
  revert m0. induction l as [|g l IH]; intros m0; [done|].
  cbn [MakeFactoryMap_range].
  destruct (m0 !! Type_of g) as [g'|] eqn:Hg.
  - cbn. intros [= <-]. exists g. split; [left|done].
  - intros (f & Hin & He)%IH. exists f. split; [by right|done].
Qed.

Lemma MakeFactoryMap_ok (l : list F) :
  (MakeFactoryMap Type_of kind l).2 = nil_error ↔ NoDup (Type_of <$> l).
Proof.
  unfold MakeFactoryMap. rewrite MakeFactoryMap_range_ok. split.
  - by intros [? _].
  - intros Hnd. split; [done|]. apply Forall_forall. intros f _.
    apply lookup_empty.
Qed.

Lemma MakeFactoryMap_dom (l : list F) :
  (MakeFactoryMap Type_of kind l).2 = nil_error →
  dom (MakeFactoryMap Type_of kind l).1 = list_to_set (Type_of <$> l)
  ∧ size (MakeFactoryMap Type_of kind l).1 = length l.
Proof.
  intros Hok.
  assert (Hdom : dom (MakeFactoryMap Type_of kind l).1
                 = list_to_set (Type_of <$> l)).
  { unfold MakeFactoryMap in *. rewrite MakeFactoryMap_range_dom by done.
    set_solver. }
  split; [done|]. rewrite <- size_dom, Hdom.
  rewrite size_list_to_set by by apply MakeFactoryMap_ok.
  by rewrite length_fmap.
Qed.

Lemma MakeFactoryMap_lookup (l : list F) (n : component.Type_) (f : F) :
  (MakeFactoryMap Type_of kind l).2 = nil_error →
  (MakeFactoryMap Type_of kind l).1 !! n = Some f →
  f ∈ l ∧ Type_of f = n.
Proof.
  intros Hok Hn. unfold MakeFactoryMap in *.
  destruct (MakeFactoryMap_range_lookup _ _ _ _ Hok Hn) as [Hin|?]; [|done].
  by rewrite lookup_empty in Hin.
Qed.
End MakeFactoryMap_facts.

(* ===================================================================== *)
(** ** GetFactories                                                       *)
(* ===================================================================== *)

Lemma first_error_elem (errs : list error) (e : error_value) :
  Some e ∈ errs → ∃ e', first_error errs = Some e' ∧ Some e' ∈ errs.
Proof.
  induction errs as [|[e0|] errs IH]; intros Hin.
  - by apply not_elem_of_nil in Hin.
  - exists e0. split; [done|left].
  - apply elem_of_cons in Hin as [[=]|Hin].
    destruct (IH Hin) as (e' & He' & Hin'). exists e'. split; [done|by right].
Qed.

Lemma first_error_nil (errs : list error) :
  Forall (λ e, e = nil_error) errs → first_error errs = nil_error.
Proof. induction 1 as [|e errs -> _ IH]; [done|exact IH]. Qed.

#[global] Instance collector_of_upstream (types : string → component.Type_) :
  Upstream (collector_of types).
Proof. by split. Qed.

Section GetFactories_facts.
Context {C : Collector}.

(** What [GetFactories] returns, from the results of its four calls. *)
Lemma GetFactories_eq (ctx : context.Context) (k : KubeAgent) :
  GetFactories ctx k =
    (match first_error registration_errors with
     | Some e => (otelcol.zero, Some e)
     | None =>
         (otelcol.mkFactories _
            (receiver_MakeFactoryMap receiver_factories).1
            (processor_MakeFactoryMap processor_factories).1
            (exporter_MakeFactoryMap exporter_factories).1
            (extension_MakeFactoryMap extension_factories).1, nil_error)
     end, k).
Proof.
  unfold GetFactories, registration_errors.
  destruct (extension_MakeFactoryMap extension_factories) as [mx [ex|]];
    [done|].
  destruct (receiver_MakeFactoryMap receiver_factories) as [mr [er|]];
    [done|].
  destruct (exporter_MakeFactoryMap exporter_factories) as [me [ee|]];
    [done|].
  by destruct (processor_MakeFactoryMap processor_factories) as [mp [ep|]].
Qed.

(** With the collector's own [MakeFactoryMap], a registration fails exactly
    when two factories of one kind declare the same type, and the error then
    names that kind and one of the types declared in its list. *)
Lemma registration_errors_nil {U : Upstream C} :
  Forall (λ e, e = nil_error) registration_errors ↔
  NoDup (extension_Type <$> extension_factories)
  ∧ NoDup (receiver_Type <$> receiver_factories)
  ∧ NoDup (exporter_Type <$> exporter_factories)
  ∧ NoDup (processor_Type <$> processor_factories).
Proof.
  unfold registration_errors. rewrite !Forall_cons, Forall_nil.
  rewrite extension_MakeFactoryMap_eq, receiver_MakeFactoryMap_eq,
    exporter_MakeFactoryMap_eq, processor_MakeFactoryMap_eq.
  rewrite !MakeFactoryMap_ok. naive_solver.
Qed.

Lemma registration_errors_duplicate {U : Upstream C} (e : error_value) :
  Some e ∈ registration_errors →
  ∃ kind name,
    e = Errorf ("duplicate " +:+ kind +:+ " factory %q") [name]
    ∧ ((kind = "receiver" ∧ name ∈ receiver_Type <$> receiver_factories)
       ∨ (kind = "exporter" ∧ name ∈ exporter_Type <$> exporter_factories)
       ∨ (kind = "processor"
          ∧ name ∈ processor_Type <$> processor_factories)).
Proof.
  unfold registration_errors.
  rewrite extension_MakeFactoryMap_eq, receiver_MakeFactoryMap_eq,
    exporter_MakeFactoryMap_eq, processor_MakeFactoryMap_eq.
  rewrite !elem_of_cons, elem_of_nil.
  intros [Hx|[Hr|[He|[Hp|[]]]]]; symmetry in Hx || symmetry in Hr
    || symmetry in He || symmetry in Hp.
  - discriminate Hx.
  - apply MakeFactoryMap_range_error in Hr as (f & Hin & ->).
    exists "receiver", (receiver_Type f). split; [done|]. left.
    split; [done|]. by apply list_elem_of_fmap_2.
  - apply MakeFactoryMap_range_error in He as (f & Hin & ->).
    exists "exporter", (exporter_Type f). split; [done|]. right. left.
    split; [done|]. by apply list_elem_of_fmap_2.
  - apply MakeFactoryMap_range_error in Hp as (f & Hin & ->).
    exists "processor", (processor_Type f). split; [done|]. right. right.
    split; [done|]. by apply list_elem_of_fmap_2.
Qed.

(** C7.  When each of the four registrations succeeds, [GetFactories]
    returns a catalog and a nil error; the key set of each of its four maps
    is the set of the types declared by the factories listed for that kind,
    these types are pairwise distinct within the kind (nine receivers, three
    exporters, seven processors, no extension), and every entry is a listed
    factory under the type it declares.  The kinds are independent
    namespaces: nothing is asked of a name across two kinds. *)
Theorem GetFactories_catalog {U : Upstream C} (ctx : context.Context)
    (k : KubeAgent) :
  Forall (λ e, e = nil_error) registration_errors →
  ∃ fs : otelcol.Factories,
    (GetFactories ctx k).1 = (fs, nil_error)
    ∧ (dom (otelcol.Receivers fs)
         = list_to_set (receiver_Type <$> receiver_factories)
       ∧ size (otelcol.Receivers fs) = 9
       ∧ NoDup (receiver_Type <$> receiver_factories)
       ∧ ∀ n f, otelcol.Receivers fs !! n = Some f →
                f ∈ receiver_factories ∧ receiver_Type f = n)
    ∧ (dom (otelcol.Exporters fs)
         = list_to_set (exporter_Type <$> exporter_factories)
       ∧ size (otelcol.Exporters fs) = 3
       ∧ NoDup (exporter_Type <$> exporter_factories)
       ∧ ∀ n f, otelcol.Exporters fs !! n = Some f →
                f ∈ exporter_factories ∧ exporter_Type f = n)
    ∧ (dom (otelcol.Processors fs)
         = list_to_set (processor_Type <$> processor_factories)
       ∧ size (otelcol.Processors fs) = 7
       ∧ NoDup (processor_Type <$> processor_factories)
       ∧ ∀ n f, otelcol.Processors fs !! n = Some f →
                f ∈ processor_factories ∧ processor_Type f = n)
    ∧ otelcol.Extensions fs = ∅.
Proof.
  intros Hok. rewrite GetFactories_eq, (first_error_nil _ Hok). cbn [fst].
  eexists. split; [reflexivity|]. cbn.
  unfold registration_errors in Hok.
  apply Forall_cons in Hok as [_ Hok].
  apply Forall_cons in Hok as [Hr Hok].
  apply Forall_cons in Hok as [He Hok].
  apply Forall_cons in Hok as [Hp _].
  rewrite receiver_MakeFactoryMap_eq in Hr |- *.
  rewrite exporter_MakeFactoryMap_eq in He |- *.
  rewrite processor_MakeFactoryMap_eq in Hp |- *.
  rewrite extension_MakeFactoryMap_eq.
  pose proof (MakeFactoryMap_dom _ _ _ Hr) as [Hrd Hrs].
  pose proof (MakeFactoryMap_dom _ _ _ He) as [Hed Hes].
  pose proof (MakeFactoryMap_dom _ _ _ Hp) as [Hpd Hps].
  pose proof (proj1 (MakeFactoryMap_ok _ _ _) Hr) as Hrn.
  pose proof (proj1 (MakeFactoryMap_ok _ _ _) He) as Hen.
  pose proof (proj1 (MakeFactoryMap_ok _ _ _) Hp) as Hpn.
  repeat split;
    try done;
    try (by eapply MakeFactoryMap_lookup).
Qed.

(** C8.  If a registration fails, [GetFactories] returns the zero
    [otelcol.Factories], every map of it empty, and the error of the first
    registration that failed, as that registration returned it; when a
    single error [e] is all the registrations return, that error is [e].
    No map built before the failure is in the result. *)
Theorem GetFactories_fails (ctx : context.Context) (k : KubeAgent)
    (e : error_value) :
  Some e ∈ registration_errors →
  (∃ e', Some e' ∈ registration_errors
         ∧ first_error registration_errors = Some e'
         ∧ (GetFactories ctx k).1 = (otelcol.zero, Some e'))
  ∧ ((∀ e', Some e' ∈ registration_errors → e' = e) →
     (GetFactories ctx k).1 = (otelcol.zero, Some e))
  ∧ otelcol.Receivers (GetFactories ctx k).1.1 = ∅
  ∧ otelcol.Exporters (GetFactories ctx k).1.1 = ∅
  ∧ otelcol.Processors (GetFactories ctx k).1.1 = ∅
  ∧ otelcol.Extensions (GetFactories ctx k).1.1 = ∅.
Proof.
  intros Hin. destruct (first_error_elem _ _ Hin) as (e' & He' & Hin').
  rewrite GetFactories_eq, He'. cbn [fst snd].
  split; [by exists e'|]. split; [|done].
  intros Hsingle. by rewrite (Hsingle e' Hin').
Qed.

(** C9.  Neither [GetUpdatedYAMLPath] nor [GetFactories] changes the
    [KubeAgent] it is called on: the receiver after the call is the receiver
    before it, so every field reads the same. *)
Theorem KubeAgent_unchanged (isSocketFn : string → bool)
    (ctx : context.Context) (k : KubeAgent) :
  (GetUpdatedYAMLPath isSocketFn k).2 = k
  ∧ (GetFactories ctx k).2 = k
  ∧ ∀ f, read f (GetUpdatedYAMLPath isSocketFn k).2 = read f k
         ∧ read f (GetFactories ctx k).2 = read f k.
Proof.
  assert (Hg : (GetFactories ctx k).2 = k) by by rewrite GetFactories_eq.
  split; [done|]. split; [done|]. intros f. by rewrite Hg.
Qed.

(** C10.  [GetFactories] never consults its context: on one [KubeAgent],
    two calls with any two contexts, a cancelled one included, return the
    same result. *)
Theorem GetFactories_ignores_context (k : KubeAgent)
    (ctx1 ctx2 : context.Context) :
  GetFactories ctx1 k = GetFactories ctx2 k
  ∧ GetFactories context.Cancelled k = GetFactories context.Background k.
Proof. split; reflexivity. Qed.
End GetFactories_facts.

Lemma GetFactories_catalog_witness :
  ∃ fs : otelcol.Factories,
    (GetFactories (C:=opentelemetry) context.Background
       (NewKubeAgent (Some 7%N, nil_error)
          (build <$> [CallApiKey "k"; CallTarget "https://x";
                      CallDockerEndpoint "unix:///var/run/test.sock"]))).1
    = (fs, nil_error)
    ∧ size (otelcol.Receivers fs) = 9
    ∧ size (otelcol.Exporters fs) = 3
    ∧ size (otelcol.Processors fs) = 7
    ∧ otelcol.Extensions fs = ∅.
Proof.
  destruct (GetFactories_catalog (C:=opentelemetry) context.Background
              (NewKubeAgent (Some 7%N, nil_error)
                 (build <$> [CallApiKey "k"; CallTarget "https://x";
                             CallDockerEndpoint "unix:///var/run/test.sock"])))
    as (fs & Hfs & (_ & Hr & _) & (_ & He & _) & (_ & Hp & _) & Hx).
  { vm_compute. repeat constructor. }
  exists fs. split; [exact Hfs|]. split; [exact Hr|]. split; [exact He|].
  split; [exact Hp|exact Hx].
Defined.

Lemma GetFactories_fails_witness :
  Some (Errorf "duplicate receiver factory %q" ["otlp"])
    ∈ registration_errors (C:=colliding)
  ∧ (GetFactories (C:=colliding) context.Background KubeAgent_zero).1
    = (otelcol.zero,
       Some (Errorf "duplicate receiver factory %q" ["otlp"])).
Proof.
  assert (Hin : Some (Errorf "duplicate receiver factory %q" ["otlp"])
                  ∈ registration_errors (C:=colliding)).
  { vm_compute. right. left. }
  split; [exact Hin|].
  apply (GetFactories_fails (C:=colliding) context.Background KubeAgent_zero
           _ Hin).
  intros e' He'. vm_compute in He'.
  repeat (apply elem_of_cons in He' as [[=]|He']); try done.
  by apply not_elem_of_nil in He'.
Defined.

(** The OTLP receiver and the OTLP exporter declare the same type, and both
    are in the catalog: a name may repeat across kinds. *)
Example opentelemetry_shares_otlp :
  package <$> (otelcol.Receivers
                 (GetFactories (C:=opentelemetry) context.Background
                    KubeAgent_zero).1.1 !! "otlp") = Some "otlpreceiver"
  ∧ package <$> (otelcol.Exporters
                   (GetFactories (C:=opentelemetry) context.Background
                      KubeAgent_zero).1.1 !! "otlp") = Some "otlpexporter".
Proof. split; vm_compute; reflexivity. Qed.

(* ===================================================================== *)
(** ** More on the split of the endpoint                                  *)
(* ===================================================================== *)

Section split_facts.
Import gostrings.

Lemma app_assoc_s (a b c : string) : (a +:+ b) +:+ c = a +:+ b +:+ c.
Proof. induction a as [|x a IH]; [done|]. rewrite !app_cons. by f_equal. Qed.

Lemma length_app_s (a b : string) :
  String.length (a +:+ b) = String.length a + String.length b.
Proof.
  induction a as [|x a IH]; [done|]. rewrite app_cons. cbn. by rewrite IH.
Qed.

(** The text before the separator [Cut] finds holds no separator. *)
Lemma Cut_before (s : string) (c : ascii) (sep before after : string) :
  Cut s (String c sep) = Some (before, after) →
  Contains before (String c sep) = false.
Proof.
  intros Hc. apply Contains_false_iff. intros x y Hb.
  pose proof (Cut_Some _ _ _ _ Hc) as Hs.
  rewrite Hb, !app_assoc_s in Hs.
  pose proof (Cut_leftmost _ _ _ _ _ _ Hc Hs) as Hle.
  rewrite Hb, !length_app_s in Hle. cbn in Hle. lia.
Qed.

(** X8.  The segments [strings.Split] returns for a separator that is not
    empty are never an empty list, joined by the separator they give the text
    back, and none of them holds the separator. *)
Theorem Split_Join (s : string) (c : ascii) (sep : string) :
  Split s (String c sep) ≠ []
  ∧ Join (Split s (String c sep)) (String c sep) = s
  ∧ Forall (λ seg, Contains seg (String c sep) = false)
           (Split s (String c sep)).
Proof.
  unfold Split. split; [apply genSplit_not_nil|].
  funelim (genSplit s c sep).
  - match goal with IH : _ ∧ _ |- _ => destruct IH as [IHj IHf] end.
    split.
    + pose proof (genSplit_not_nil after c sep) as Hne.
      cbn [Join]. destruct (genSplit after c sep) as [|seg segs]; [done|].
      rewrite IHj. symmetry. by apply Cut_Some.
    + constructor; [by eapply Cut_before|done].
  - split; [done|]. constructor; [|constructor].
    unfold Contains. by match goal with Hc : Cut _ _ = None |- _ =>
      rewrite Hc end.
Qed.

(** The first two bytes of [String c (a ++ "/")] and of
    [String c (a ++ "//" ++ r)] are the same. *)
Lemma HasPrefix_slashes (c : ascii) (a r : string) :
  HasPrefix (String c (a +:+ "//" +:+ r)) "//"
  = HasPrefix (String c (a +:+ "/")) "//".
Proof. by destruct a. Qed.

Lemma Cut_slashes_before (s a r : string) :
  Cut s "//" = Some (a, r) → Contains (a +:+ "/") "//" = false.
Proof.
  revert a. induction s as [|c s IH]; intros a Hc; [discriminate Hc|].
  pose proof (Cut_Some _ _ _ _ Hc) as Hs.
  cbn [Cut] in Hc. destruct (HasPrefix (String c s) "//") eqn:Hp.
  - by injection Hc as <- <-.
  - destruct (Cut s "//") as [[a0 r0]|] eqn:Hc0; [|discriminate].
    injection Hc as <- <-. specialize (IH _ eq_refl).
    rewrite app_cons in Hs. injection Hs as Hs.
    rewrite Hs, HasPrefix_slashes in Hp.
    unfold Contains in *. rewrite app_cons. cbn [Cut]. rewrite Hp.
    by destruct (Cut (a0 +:+ "/") "//").
Qed.

Lemma Cut_slashes_app (a r : string) :
  Contains (a +:+ "/") "//" = false →
  Cut (a +:+ "//" +:+ r) "//" = Some (a, r).
Proof.
  induction a as [|c a IH]; intros Hclean.
  - by destruct r.
  - unfold Contains in Hclean. rewrite app_cons in Hclean |- *.
    cbn [Cut] in Hclean |- *.
    rewrite HasPrefix_slashes.
    destruct (HasPrefix (String c (a +:+ "/")) "//"); [discriminate|].
    destruct (Cut (a +:+ "/") "//") as [[? ?]|] eqn:Hc; [discriminate|].
    rewrite IH; [done|]. unfold Contains. by rewrite Hc.
Qed.
End split_facts.

(** X6.  [GetUpdatedYAMLPath] returns "/app/otel-config.yaml" exactly for the
    endpoints [a ++ "//" ++ sock] in which the shown "//" is the only one (no
    "//" starts inside [a] or at its last byte, none is in [sock]) and whose
    [sock] the probe accepts.  Nothing is asked of [a]: the scheme before the
    "//" is not looked at. *)
Theorem GetUpdatedYAMLPath_full_iff (isSocketFn : string → bool)
    (k : KubeAgent) :
  (GetUpdatedYAMLPath isSocketFn k).1.1 = "/app/otel-config.yaml" ↔
  ∃ a sock,
    dockerEndpoint k = a +:+ "//" +:+ sock
    ∧ gostrings.Contains (a +:+ "/") "//" = false
    ∧ gostrings.Contains sock "//" = false
    ∧ isSocketFn sock = true.
Proof.
  rewrite GetUpdatedYAMLPath_by_cut. split.
  - destruct (gostrings.Cut (dockerEndpoint k) "//") as [[a sock]|] eqn:Hc;
      [|discriminate].
    destruct (gostrings.Contains sock "//") eqn:Hs; [discriminate|].
    destruct (isSocketFn sock) eqn:Hl; [|discriminate].
    intros _. exists a, sock. split; [by apply Cut_Some|].
    split; [by eapply Cut_slashes_before|done].
  - intros (a & sock & -> & Ha & Hs & Hl).
    by rewrite (Cut_slashes_app _ _ Ha), Hs, Hl.
Qed.

(** X7.  The probe matters only through its answer on the second segment of
    a two-segment split: two probes that agree there give the same result,
    and when the split has not exactly two segments every probe gives the
    same result. *)
Theorem GetUpdatedYAMLPath_probe (p1 p2 : string → bool) (k : KubeAgent) :
  (∀ a sock, gostrings.Split (dockerEndpoint k) "//" = [a; sock] →
             p1 sock = p2 sock) →
  GetUpdatedYAMLPath p1 k = GetUpdatedYAMLPath p2 k.
Proof.
  intros Hagree. unfold GetUpdatedYAMLPath.
  destruct (gostrings.Split (dockerEndpoint k) "//")
    as [|a [|sock [|x l]]]; try reflexivity.
  cbn. by rewrite (Hagree a sock eq_refl).
Qed.

Lemma GetUpdatedYAMLPath_probe_witness :
  GetUpdatedYAMLPath (λ s, bool_decide (s = "/run/a.sock"))
    (WithKubeAgentDockerEndpoint "unix:///run/a.sock" KubeAgent_zero)
  = GetUpdatedYAMLPath (λ _, true)
      (WithKubeAgentDockerEndpoint "unix:///run/a.sock" KubeAgent_zero)
  ∧ GetUpdatedYAMLPath (λ _, true)
      (WithKubeAgentDockerEndpoint "a//b//c" KubeAgent_zero)
    = GetUpdatedYAMLPath (λ _, false)
        (WithKubeAgentDockerEndpoint "a//b//c" KubeAgent_zero).
Proof.
  split.
  - apply GetUpdatedYAMLPath_probe. intros a sock Hs.
    vm_compute in Hs. by injection Hs as _ <-.
  - apply GetUpdatedYAMLPath_probe. intros a sock Hs.
    vm_compute in Hs. discriminate Hs.
Defined.

(* ===================================================================== *)
(** ** More on the options and NewKubeAgent                               *)
(* ===================================================================== *)

(** Two identities with the same seven fields are the same. *)
Lemma KubeAgent_ext (k1 k2 : KubeAgent) :
  (∀ f, read f k1 = read f k2) → k1 = k2.
Proof.
  intros H. destruct k1, k2.
  pose proof (H FApiKey). pose proof (H FTarget).
  pose proof (H FEnableSytheticMonitoring).
  pose proof (H FConfigCheckInterval). pose proof (H FApiURLForConfigCheck).
  pose proof (H FLogger). pose proof (H FDockerEndpoint).
  cbn in *. congruence.
Qed.

(** A field after a run of options: the value of the last option that sets
    it, or what it held before. *)
Lemma read_options (f : Field) (opts : list option_call) (h : KubeAgent) :
  read f (foldl (λ cfg apply, apply cfg) h (build <$> opts))
  = foldl (λ v c, if decide (field_of c = f) then value_of c else v)
          (read f h) opts.
Proof.
  revert h. induction opts as [|c opts IH]; intros h; [done|].
  cbn [fmap list_fmap foldl]. rewrite IH. f_equal. case_decide as Hf.
  - subst f. apply build_writes.
  - by apply build_frame.
Qed.

Lemma options_swap (c1 c2 : option_call) (h : KubeAgent) :
  field_of c1 ≠ field_of c2 → build c2 (build c1 h) = build c1 (build c2 h).
Proof. by destruct c1, c2. Qed.

Lemma options_overridden (c c' : option_call) (mid : list option_call)
    (h : KubeAgent) :
  field_of c = field_of c' →
  foldl (λ cfg apply, apply cfg) (build c h) (build <$> mid ++ [c'])
  = foldl (λ cfg apply, apply cfg) h (build <$> mid ++ [c']).
Proof.
  intros Hsame. apply KubeAgent_ext. intros f. rewrite !read_options.
  destruct (decide (field_of c = f)) as [Hf|Hf].
  - rewrite !foldl_app. cbn [foldl]. rewrite <- Hsame.
    by rewrite !decide_True.
  - by rewrite build_frame.
Qed.

(** X1.  Two neighbouring options that set different fields can be swapped:
    [NewKubeAgent] builds the same identity from both sequences. *)
Theorem NewKubeAgent_swap (zap_NewProduction : option zap.Logger * error)
    (pre post : list option_call) (c1 c2 : option_call) :
  field_of c1 ≠ field_of c2 →
  NewKubeAgent zap_NewProduction (build <$> pre ++ c1 :: c2 :: post)
  = NewKubeAgent zap_NewProduction (build <$> pre ++ c2 :: c1 :: post).
Proof.
  intros Hdiff. unfold NewKubeAgent. cbn zeta.
  rewrite !fmap_app, !foldl_app. cbn [fmap list_fmap foldl].
  by rewrite (options_swap c1 c2).
Qed.

Lemma NewKubeAgent_swap_witness :
  NewKubeAgent (Some 7%N, nil_error)
    (build <$> [CallTarget "https://x"] ++ CallApiKey "k"
                 :: CallDockerEndpoint "unix:///var/run/docker.sock"
                 :: [CallLogger None])
  = NewKubeAgent (Some 7%N, nil_error)
      (build <$> [CallTarget "https://x"]
                   ++ CallDockerEndpoint "unix:///var/run/docker.sock"
                   :: CallApiKey "k" :: [CallLogger None]).
Proof.
  apply (NewKubeAgent_swap (Some 7%N, nil_error) [CallTarget "https://x"]
           [CallLogger None] (CallApiKey "k")
           (CallDockerEndpoint "unix:///var/run/docker.sock")).
  discriminate.
Defined.

(** X2.  An option that a later option of the same field overrides has no
    effect at all: dropping it from the sequence leaves the identity
    [NewKubeAgent] builds unchanged, whatever stands between the two. *)
Theorem NewKubeAgent_overridden
    (zap_NewProduction : option zap.Logger * error)
    (pre mid post : list option_call) (c c' : option_call) :
  field_of c = field_of c' →
  NewKubeAgent zap_NewProduction (build <$> pre ++ c :: mid ++ c' :: post)
  = NewKubeAgent zap_NewProduction (build <$> pre ++ mid ++ c' :: post).
Proof.
  intros Hsame. unfold NewKubeAgent. cbn zeta.
  replace (pre ++ c :: mid ++ c' :: post)
    with (pre ++ c :: (mid ++ [c']) ++ post)
    by (by rewrite <- (app_assoc mid)).
  replace (pre ++ mid ++ c' :: post)
    with (pre ++ (mid ++ [c']) ++ post)
    by (by rewrite <- (app_assoc mid)).
  pose proof (options_overridden c c' mid) as Hdead.
  remember (mid ++ [c']) as M eqn:HM. clear HM.
  rewrite !fmap_app, fmap_cons, !fmap_app, !foldl_app. cbn [foldl].
  rewrite foldl_app. by rewrite Hdead.
Qed.

Lemma NewKubeAgent_overridden_witness :
  NewKubeAgent (Some 7%N, nil_error)
    (build <$> [CallTarget "https://x"] ++ CallApiKey "old"
                 :: [CallLogger (Some 3%N); CallApiKey "older"]
                 ++ CallApiKey "k" :: [CallDockerEndpoint "unix:///s"])
  = NewKubeAgent (Some 7%N, nil_error)
      (build <$> [CallTarget "https://x"]
                   ++ [CallLogger (Some 3%N); CallApiKey "older"]
                   ++ CallApiKey "k" :: [CallDockerEndpoint "unix:///s"]).
Proof.
  apply (NewKubeAgent_overridden (Some 7%N, nil_error)
           [CallTarget "https://x"]
           [CallLogger (Some 3%N); CallApiKey "older"]
           [CallDockerEndpoint "unix:///s"]
           (CallApiKey "old") (CallApiKey "k")).
  reflexivity.
Defined.

(** X3.  A field other than the logger that no option of the sequence sets
    holds its zero value in the identity [NewKubeAgent] builds: the empty
    string, or false for enableSytheticMonitoring. *)
Theorem NewKubeAgent_unset_field
    (zap_NewProduction : option zap.Logger * error)
    (opts : list option_call) (f : Field) :
  Forall (λ c, field_of c ≠ f) opts →
  f ≠ FLogger →
  read f (NewKubeAgent zap_NewProduction (build <$> opts))
  = read f KubeAgent_zero
  ∧ read f KubeAgent_zero
    = if decide (f = FEnableSytheticMonitoring) then VBool false
      else VString "".
Proof.
  intros Hnone Hf. split; [|by destruct f].
  rewrite NewKubeAgent_read. cbn zeta. rewrite options_frame by done.
  rewrite decide_False; [done|]. by destruct f.
Qed.

Lemma NewKubeAgent_unset_field_witness :
  read FTarget
    (NewKubeAgent (Some 7%N, nil_error)
       (build <$> [CallApiKey "k"; CallLogger None]))
  = read FTarget KubeAgent_zero
  ∧ read FTarget KubeAgent_zero
    = if decide (FTarget = FEnableSytheticMonitoring) then VBool false
      else VString "".
Proof.
  apply (NewKubeAgent_unset_field (Some 7%N, nil_error)
           [CallApiKey "k"; CallLogger None] FTarget).
  - repeat constructor; discriminate.
  - discriminate.
Defined.

Lemma dockerEndpoint_read (k : KubeAgent) (e : string) :
  read FDockerEndpoint k = VString e → dockerEndpoint k = e.
Proof. by intros [=]. Qed.

Lemma GetUpdatedYAMLPath_endpoint (isSocketFn : string → bool)
    (k1 k2 : KubeAgent) :
  dockerEndpoint k1 = dockerEndpoint k2 →
  (GetUpdatedYAMLPath isSocketFn k1).1 = (GetUpdatedYAMLPath isSocketFn k2).1.
Proof. intros He. unfold GetUpdatedYAMLPath. by rewrite He. Qed.

(** X4.  An identity built without any docker endpoint option gets
    "/app/otel-config-nodocker.yaml" from [GetUpdatedYAMLPath], whatever the
    other options are and whatever the probe would answer. *)
Theorem NewKubeAgent_without_docker_endpoint
    (zap_NewProduction : option zap.Logger * error)
    (isSocketFn : string → bool) (opts : list option_call) :
  Forall (λ c, field_of c ≠ FDockerEndpoint) opts →
  (GetUpdatedYAMLPath isSocketFn
     (NewKubeAgent zap_NewProduction (build <$> opts))).1
  = ("/app/otel-config-nodocker.yaml", nil_error).
Proof.
  intros Hnone.
  rewrite (GetUpdatedYAMLPath_endpoint _ _ KubeAgent_zero); [done|].
  apply dockerEndpoint_read. rewrite NewKubeAgent_read. cbn zeta.
  by rewrite options_frame.
Qed.

Lemma NewKubeAgent_without_docker_endpoint_witness :
  (GetUpdatedYAMLPath (λ _, true)
     (NewKubeAgent (Some 7%N, nil_error)
        (build <$> [CallApiKey "k"; CallTarget "https://x"]))).1
  = ("/app/otel-config-nodocker.yaml", nil_error).
Proof.
  apply (NewKubeAgent_without_docker_endpoint (Some 7%N, nil_error)
           (λ _, true) [CallApiKey "k"; CallTarget "https://x"]).
  repeat constructor; discriminate.
Defined.

(** X5.  The path [GetUpdatedYAMLPath] selects for an identity built by
    [NewKubeAgent] is decided by the last docker endpoint option alone: it is
    the path selected for that endpoint on its own, whatever the other
    options and the outcome of [zap.NewProduction] are. *)
Theorem GetUpdatedYAMLPath_of_options
    (zap_NewProduction : option zap.Logger * error)
    (isSocketFn : string → bool) (pre post : list option_call)
    (endpoint : string) :
  Forall (λ c, field_of c ≠ FDockerEndpoint) post →
  (GetUpdatedYAMLPath isSocketFn
     (NewKubeAgent zap_NewProduction
        (build <$> pre ++ CallDockerEndpoint endpoint :: post))).1
  = (GetUpdatedYAMLPath isSocketFn
       (WithKubeAgentDockerEndpoint endpoint KubeAgent_zero)).1.
Proof.
  intros Hlater. apply GetUpdatedYAMLPath_endpoint.
  apply dockerEndpoint_read. rewrite NewKubeAgent_read. cbn zeta.
  by rewrite (options_last pre post (CallDockerEndpoint endpoint)).
Qed.

Lemma GetUpdatedYAMLPath_of_options_witness :
  (GetUpdatedYAMLPath (λ s, bool_decide (s = "/var/run/test.sock"))
     (NewKubeAgent (Some 7%N, nil_error)
        (build <$> [CallApiKey "k"; CallDockerEndpoint "old"]
                     ++ CallDockerEndpoint "unix:///var/run/test.sock"
                     :: [CallTarget "https://x"]))).1
  = (GetUpdatedYAMLPath (λ s, bool_decide (s = "/var/run/test.sock"))
       (WithKubeAgentDockerEndpoint "unix:///var/run/test.sock"
          KubeAgent_zero)).1.
Proof.
  apply (GetUpdatedYAMLPath_of_options (Some 7%N, nil_error)
           (λ s, bool_decide (s = "/var/run/test.sock"))
           [CallApiKey "k"; CallDockerEndpoint "old"]
           [CallTarget "https://x"] "unix:///var/run/test.sock").
  repeat constructor; discriminate.
Defined.

(* ===================================================================== *)
(** ** More on the factory assembly                                       *)
(* ===================================================================== *)

Lemma first_error_None (errs : list error) :
  first_error errs = nil_error ↔ Forall (λ e, e = nil_error) errs.
Proof.
  split; [|apply first_error_nil].
  induction errs as [|[e|] errs IH]; intros Hf.
  - constructor.
  - discriminate Hf.
  - constructor; [done|by apply IH].
Qed.

Lemma first_error_Some (errs : list error) (e : error_value) :
  first_error errs = Some e → Some e ∈ errs.
Proof.
  induction errs as [|[e0|] errs IH]; intros Hf.
  - discriminate Hf.
  - injection Hf as ->. left.
  - right. by apply IH.
Qed.

Section MakeFactoryMap_more.
Context {F : Type} (Type_of : F → component.Type_) (kind : string).

Lemma NoDup_fmap_same (l : list F) (x y : F) :
  NoDup (Type_of <$> l) → x ∈ l → y ∈ l → Type_of x = Type_of y → x = y.
Proof.
  induction l as [|z l IH]; intros Hnd Hx Hy Hxy.
  - by apply not_elem_of_nil in Hx.
  - rewrite fmap_cons in Hnd. apply NoDup_cons in Hnd as [Hz Hnd].
    apply elem_of_cons in Hx as [->|Hx]; apply elem_of_cons in Hy as [->|Hy].
    + done.
    + exfalso. apply Hz. rewrite Hxy. by apply list_elem_of_fmap_2.
    + exfalso. apply Hz. rewrite <- Hxy. by apply list_elem_of_fmap_2.
    + by apply IH.
Qed.

(** After a successful [MakeFactoryMap], each factory of the list is found
    under its own type. *)
Lemma MakeFactoryMap_lookup_listed (l : list F) (f : F) :
  (MakeFactoryMap Type_of kind l).2 = nil_error →
  f ∈ l →
  (MakeFactoryMap Type_of kind l).1 !! Type_of f = Some f.
Proof.
  intros Hok Hin.
  pose proof (MakeFactoryMap_dom _ _ _ Hok) as [Hdom _].
  assert (Hd : Type_of f ∈ dom (MakeFactoryMap Type_of kind l).1).
  { rewrite Hdom. apply elem_of_list_to_set. by apply list_elem_of_fmap_2. }
  apply elem_of_dom in Hd as [g Hg]. rewrite Hg. f_equal.
  destruct (MakeFactoryMap_lookup _ _ _ _ _ Hok Hg) as [Hgl Hgt].
  apply (NoDup_fmap_same l); [by eapply MakeFactoryMap_ok|done..].
Qed.

(** The factory on which the loop stops declares a type that is a key
    already or that a factory before it in the list declares. *)
Lemma MakeFactoryMap_range_error_earlier (l : list F)
    (m0 : gmap component.Type_ F) (e : error_value) :
  (MakeFactoryMap_range Type_of kind m0 l).2 = Some e →
  ∃ l1 g l3,
    l = l1 ++ g :: l3
    ∧ e = Errorf ("duplicate " +:+ kind +:+ " factory %q") [Type_of g]
    ∧ (is_Some (m0 !! Type_of g) ∨ Type_of g ∈ Type_of <$> l1).
Proof.
  revert m0. induction l as [|h l IH]; intros m0; [done|].
  cbn [MakeFactoryMap_range].
  destruct (m0 !! Type_of h) as [h'|] eqn:Hh.
  - cbn. intros [= <-]. exists [], h, l. rewrite Hh. eauto.
  - intros (l1 & g & l3 & -> & -> & Hwhere)%IH.
    exists (h :: l1), g, l3. split; [done|]. split; [done|].
    destruct Hwhere as [Hkey|Hin].
    + destruct (decide (Type_of h = Type_of g)) as [Heq|Hne].
      * right. rewrite fmap_cons, Heq. left.
      * left. by rewrite lookup_insert_ne in Hkey.
    + right. rewrite fmap_cons. by right.
Qed.

Lemma MakeFactoryMap_error_twice (l : list F) (e : error_value) :
  (MakeFactoryMap Type_of kind l).2 = Some e →
  ∃ name, e = Errorf ("duplicate " +:+ kind +:+ " factory %q") [name]
          ∧ declared_twice Type_of l name.
Proof.
  intros (l1 & g & l3 & -> & -> & Hwhere)%MakeFactoryMap_range_error_earlier.
  exists (Type_of g). split; [done|].
  destruct Hwhere as [[? Hkey]|Hin]; [by rewrite lookup_empty in Hkey|].
  apply list_elem_of_fmap in Hin as (f & Hf & Hin).
  apply list_elem_of_split in Hin as (l0 & l2 & ->).
  exists l0, f, l2, g, l3. by rewrite <- app_assoc.
Qed.

Lemma MakeFactoryMap_fails (l : list F) :
  ¬ NoDup (Type_of <$> l) →
  ∃ e, (MakeFactoryMap Type_of kind l).2 = Some e.
Proof.
  intros Hdup. destruct (MakeFactoryMap Type_of kind l).2 as [e|] eqn:He.
  - by exists e.
  - by apply MakeFactoryMap_ok in He.
Qed.
End MakeFactoryMap_more.

Section GetFactories_more.
Context {C : Collector} {U : Upstream C}.

Lemma GetFactories_error_first (ctx : context.Context) (k : KubeAgent) :
  (GetFactories ctx k).1.2 = first_error registration_errors.
Proof.
  rewrite GetFactories_eq. by destruct (first_error registration_errors).
Qed.

(** X10.  With the collector's own [MakeFactoryMap], [GetFactories] returns
    a nil error exactly when the types declared within each kind's list are
    pairwise distinct; a type shared by factories of two different kinds
    never makes it fail. *)
Theorem GetFactories_ok_iff (ctx : context.Context) (k : KubeAgent) :
  (GetFactories ctx k).1.2 = nil_error ↔
  NoDup (receiver_Type <$> receiver_factories)
  ∧ NoDup (exporter_Type <$> exporter_factories)
  ∧ NoDup (processor_Type <$> processor_factories).
Proof.
  rewrite GetFactories_error_first, first_error_None, registration_errors_nil.
  split; [by intros (_ & ? & ? & ?)|].
  intros (? & ? & ?). split; [constructor|done].
Qed.

(** X11.  With the collector's own [MakeFactoryMap], an error returned by
    [GetFactories] is always a duplicate-factory error of the receiver, the
    exporter or the processor kind (never of the extension kind, whose list
    is empty), and the type it names is declared by two factories of that
    kind's list. *)
Theorem GetFactories_error_names_duplicate (ctx : context.Context)
    (k : KubeAgent) (e : error_value) :
  (GetFactories ctx k).1.2 = Some e →
  ∃ name,
    (e = Errorf "duplicate receiver factory %q" [name]
     ∧ declared_twice receiver_Type receiver_factories name)
    ∨ (e = Errorf "duplicate exporter factory %q" [name]
       ∧ declared_twice exporter_Type exporter_factories name)
    ∨ (e = Errorf "duplicate processor factory %q" [name]
       ∧ declared_twice processor_Type processor_factories name).
Proof.
  rewrite GetFactories_error_first. intros Hin%first_error_Some.
  unfold registration_errors in Hin.
  rewrite extension_MakeFactoryMap_eq, receiver_MakeFactoryMap_eq,
    exporter_MakeFactoryMap_eq, processor_MakeFactoryMap_eq in Hin.
  rewrite !elem_of_cons, elem_of_nil in Hin.
  destruct Hin as [Hx|[Hr|[Hex|[Hp|[]]]]].
  - discriminate Hx.
  - symmetry in Hr.
    apply MakeFactoryMap_error_twice in Hr as (name & -> & Htwice).
    exists name. by left.
  - symmetry in Hex.
    apply MakeFactoryMap_error_twice in Hex as (name & -> & Htwice).
    exists name. right. by left.
  - symmetry in Hp.
    apply MakeFactoryMap_error_twice in Hp as (name & -> & Htwice).
    exists name. right. by right.
Qed.

(** X12.  With the collector's own [MakeFactoryMap], the error
    [GetFactories] returns is that of the first kind, in the order receiver,
    exporter, processor, whose list declares a type twice: a receiver
    collision is reported whatever the exporters and processors declare, and
    an exporter collision hides a processor collision. *)
Theorem GetFactories_error_order (ctx : context.Context) (k : KubeAgent) :
  (¬ NoDup (receiver_Type <$> receiver_factories) →
   ∃ name, (GetFactories ctx k).1.2
           = Some (Errorf "duplicate receiver factory %q" [name]))
  ∧ (NoDup (receiver_Type <$> receiver_factories) →
     ¬ NoDup (exporter_Type <$> exporter_factories) →
     ∃ name, (GetFactories ctx k).1.2
             = Some (Errorf "duplicate exporter factory %q" [name]))
  ∧ (NoDup (receiver_Type <$> receiver_factories) →
     NoDup (exporter_Type <$> exporter_factories) →
     ¬ NoDup (processor_Type <$> processor_factories) →
     ∃ name, (GetFactories ctx k).1.2
             = Some (Errorf "duplicate processor factory %q" [name])).
Proof.
  rewrite GetFactories_error_first. unfold registration_errors.
  rewrite extension_MakeFactoryMap_eq, receiver_MakeFactoryMap_eq,
    exporter_MakeFactoryMap_eq, processor_MakeFactoryMap_eq.
  change (MakeFactoryMap extension_Type "extension" extension_factories).2
    with nil_error.
  cbn [first_error nil_error].
  split; [|split].
  - intros Hr.
    destruct (MakeFactoryMap_fails receiver_Type "receiver" _ Hr) as [e He].
    pose proof (MakeFactoryMap_error_twice _ _ _ _ He) as (name & -> & _).
    exists name. by rewrite He.
  - intros Hr Hx. apply (MakeFactoryMap_ok receiver_Type "receiver") in Hr.
    destruct (MakeFactoryMap_fails exporter_Type "exporter" _ Hx) as [e He].
    pose proof (MakeFactoryMap_error_twice _ _ _ _ He) as (name & -> & _).
    exists name. by rewrite Hr, He.
  - intros Hr Hx Hp. apply (MakeFactoryMap_ok receiver_Type "receiver") in Hr.
    apply (MakeFactoryMap_ok exporter_Type "exporter") in Hx.
    destruct (MakeFactoryMap_fails processor_Type "processor" _ Hp)
      as [e He].
    pose proof (MakeFactoryMap_error_twice _ _ _ _ He) as (name & -> & _).
    exists name. by rewrite Hr, Hx, He.
Qed.

(** X13.  With the collector's own [MakeFactoryMap], in the catalog a
    successful [GetFactories] returns every factory of the three lists is
    found under the type it declares, and what is found there is that very
    factory. *)
Theorem GetFactories_lookup (ctx : context.Context) (k : KubeAgent)
    (fs : otelcol.Factories) :
  (GetFactories ctx k).1 = (fs, nil_error) →
  (∀ f, f ∈ receiver_factories →
        otelcol.Receivers fs !! receiver_Type f = Some f)
  ∧ (∀ f, f ∈ exporter_factories →
          otelcol.Exporters fs !! exporter_Type f = Some f)
  ∧ (∀ f, f ∈ processor_factories →
          otelcol.Processors fs !! processor_Type f = Some f).
Proof.
  rewrite GetFactories_eq. cbn [fst].
  destruct (first_error registration_errors) as [e|] eqn:He; [done|].
  intros [= <-]. cbn [otelcol.Receivers otelcol.Exporters otelcol.Processors].
  apply first_error_None in He. unfold registration_errors in He.
  apply Forall_cons in He as [_ He].
  apply Forall_cons in He as [Hr He].
  apply Forall_cons in He as [Hx He].
  apply Forall_cons in He as [Hp _].
  rewrite receiver_MakeFactoryMap_eq in Hr |- *.
  rewrite exporter_MakeFactoryMap_eq in Hx |- *.
  rewrite processor_MakeFactoryMap_eq in Hp |- *.
  repeat split; intros f Hf; by apply MakeFactoryMap_lookup_listed.
Qed.
End GetFactories_more.

Lemma GetFactories_ok_iff_witness :
  (GetFactories (C:=opentelemetry) context.Background KubeAgent_zero).1.2
    = nil_error
  ∧ (GetFactories (C:=colliding) context.Background KubeAgent_zero).1.2
    ≠ nil_error.
Proof.
  split.
  - apply (GetFactories_ok_iff (C:=opentelemetry)).
    repeat split; vm_compute; refine (bool_decide_unpack _ _); vm_compute;
      exact I.
  - intros Hok.
    apply (GetFactories_ok_iff (C:=colliding)) in Hok as [Hr _].
    vm_compute in Hr. apply NoDup_cons in Hr as [Hr _]. apply Hr. left.
Defined.

Lemma GetFactories_error_names_duplicate_witness :
  ∃ name,
    (Errorf "duplicate receiver factory %q" ["otlp"]
       = Errorf "duplicate receiver factory %q" [name]
     ∧ declared_twice (receiver_Type (Collector:=colliding))
         (receiver_factories (C:=colliding)) name)
    ∨ (Errorf "duplicate receiver factory %q" ["otlp"]
         = Errorf "duplicate exporter factory %q" [name]
       ∧ declared_twice (exporter_Type (Collector:=colliding))
           (exporter_factories (C:=colliding)) name)
    ∨ (Errorf "duplicate receiver factory %q" ["otlp"]
         = Errorf "duplicate processor factory %q" [name]
       ∧ declared_twice (processor_Type (Collector:=colliding))
           (processor_factories (C:=colliding)) name).
Proof.
  apply (GetFactories_error_names_duplicate (C:=colliding)
           context.Background KubeAgent_zero).
  vm_compute. reflexivity.
Defined.

Lemma GetFactories_error_order_witness :
  ∃ name,
    (GetFactories (C:=colliding_twice) context.Background KubeAgent_zero).1.2
    = Some (Errorf "duplicate receiver factory %q" [name]).
Proof.
  apply (GetFactories_error_order (C:=colliding_twice) context.Background
           KubeAgent_zero).
  intros Hr. vm_compute in Hr.
  do 4 (apply NoDup_cons in Hr as [_ Hr]).
  apply NoDup_cons in Hr as [Hr _]. apply Hr.
  do 2 right. left.
Defined.

Lemma GetFactories_lookup_witness :
  otelcol.Receivers
    (GetFactories (C:=opentelemetry) context.Background KubeAgent_zero).1.1
    !! receiver_Type (Collector:=opentelemetry) k8sclusterreceiver_NewFactory
  = Some (k8sclusterreceiver_NewFactory (Collector:=opentelemetry))
  ∧ receiver_Type (Collector:=opentelemetry) k8sclusterreceiver_NewFactory
    = "k8s_cluster".
Proof.
  split; [|reflexivity].
  refine (proj1 (GetFactories_lookup (C:=opentelemetry) context.Background
                   KubeAgent_zero
                   (GetFactories (C:=opentelemetry) context.Background
                      KubeAgent_zero).1.1 _) _ _).
  - apply injective_projections; [reflexivity|]. vm_compute. reflexivity.
  - do 5 right. left.
Defined.
